(** * data_processing.py: cold-start-free split and balanced labeler

    A shallow embedding of [train_test_no_coldstart] and
    [get_labels_no_coldstart] from
    personalized-fashion-recommendations/data_processing.py, and the
    properties of the two functions.

    A pandas DataFrame is a list of rows, each carrying its index label;
    [iloc] slicing follows Python's slice rules (negative bounds count
    from the end, bounds are clipped to the length).  Python sets are
    [gset]s, the dict built by [groupby(...).agg(set).to_dict()] is a
    [gmap]; the order in which a set is listed is a parameter, since
    Python fixes it only within one process.  Exceptions are values of
    [result]; numpy's random generator is an explicit state threaded
    through the labeler. *)

From stdpp Require Import base numbers option strings list sorting sets gmap.

Local Open Scope Z_scope.

(** ** Exceptions *)

Inductive exn := ValueError | KeyError | IndexError.

Inductive result (T : Type) :=
  | Ok (x : T)
  | Raise (e : exn).
Arguments Ok {T} x.
Arguments Raise {T} e.

(** ** Python slicing *)

(** [slice.indices] for one bound of a slice with step 1 over a sequence
    of [len] items. *)
Definition clip (len i : Z) : Z :=
  if decide (i < 0) then Z.max 0 (i + len) else Z.min i len.

(** [df.iloc[start:stop]] *)
Definition iloc {X : Type} (df : list X) (start stop : Z) : list X :=
  let len := Z.of_nat (length df) in
  let a := clip len start in
  let b := clip len stop in
  take (Z.to_nat (b - a)) (drop (Z.to_nat a) df).

(** [df.iloc[start:]] *)
Definition iloc_from {X : Type} (df : list X) (start : Z) : list X :=
  drop (Z.to_nat (clip (Z.of_nat (length df)) start)) df.

(** ** Random source *)

(** numpy's generator, as the labeler uses it.  [rs_seed] builds a generator
    from a seed ([np.random.seed], [RandomState(seed)]) and rejects seeds
    numpy does not accept; [rs_randint g k] draws an index below [k];
    [rs_permutation g k] draws a permutation of [range(k)]. *)
Class RandomSource (RS : Type) := {
  rs_seed : Z → option RS;
  rs_randint : RS → nat → nat * RS;
  rs_permutation : RS → nat → list nat * RS;
  rs_randint_lt g k : (0 < k)%nat → ((rs_randint g k).1 < k)%nat;
  rs_permutation_perm g k : (rs_permutation g k).1 ≡ₚ seq 0 k
}.

(** Computations that read and advance the global generator and may
    raise. *)
Definition M (RS T : Type) : Type := RS → result T * RS.

Definition ret {RS T : Type} (x : T) : M RS T := λ g, (Ok x, g).

Definition raise {RS T : Type} (e : exn) : M RS T := λ g, (Raise e, g).

Definition bind {RS T U : Type} (m : M RS T) (k : T → M RS U) : M RS U :=
  λ g, match m g with
       | (Ok x, g') => k x g'
       | (Raise e, g') => (Raise e, g')
       end.

Notation "x <- m ;; k" := (bind m (λ x, k))
  (at level 100, m at next level, right associativity).

Section sampling.
Context {RS : Type} `{RandomSource RS}.

(** [np.random.seed(seed)] *)
Definition np_random_seed (seed : Z) : M RS unit :=
  λ g, match rs_seed seed with
       | Some g' => (Ok tt, g')
       | None => (Raise ValueError, g)
       end.

(** [np.random.choice(items)] on the global generator. *)
Definition np_random_choice {X : Type} (items : list X) : M RS X :=
  match items with
  | [] => raise ValueError
  | _ => λ g,
    let '(i, g') := rs_randint g (length items) in
    match items !! i with
    | Some x => (Ok x, g')
    | None => (Raise IndexError, g')
    end
  end.

(** The permutation [DataFrame.sample] draws: from a fresh generator when
    [random_state] is an int (the global one is left alone), from the
    global generator when it is [None]. *)
Definition sample_permutation (random_state : option Z) (k : nat) : M RS (list nat) :=
  λ g, match random_state with
       | Some seed =>
         match rs_seed seed with
         | Some g1 => (Ok (rs_permutation g1 k).1, g)
         | None => (Raise ValueError, g)
         end
       | None => let '(p, g') := rs_permutation g k in (Ok p, g')
       end.

(** A seed numpy accepts, or no seed at all. *)
Definition seed_accepted (random_state : option Z) : Prop :=
  match random_state with
  | Some seed => is_Some (rs_seed seed)
  | None => True
  end.

(** [df.take(locs)] *)
Definition take_rows {X : Type} (df : list X) (locs : list nat) : M RS (list X) :=
  match mapM (λ i, df !! i) locs with
  | Some rows => ret rows
  | None => raise IndexError
  end.

(** [df.sample(n=size, random_state=random_state)]: the rows at the first
    [size] entries of a random permutation of the positions. *)
Definition df_sample {X : Type} (df : list X) (size : nat) (random_state : option Z)
  : M RS (list X) :=
  if decide (size ≤ length df)%nat then
    p <- sample_permutation random_state (length df) ;;
    take_rows df (take size p)
  else raise ValueError.

End sampling.

(** ** Missing values and set order *)

(** [pd.isna] on an identifier: the value is missing (NaN, None). *)
Class IsNA (T : Type) := isna : T → bool.

(** The order in which Python lists a set ([list(s)]).  It is fixed within
    one process; for [str] elements it changes with the hash seed of the
    process. *)
Class SetOrder (T : Type) `{Countable T} := {
  set_to_list : gset T → list T;
  set_to_list_perm X : set_to_list X ≡ₚ elements X
}.

(** ** Tables *)

Section tables.
Context {C A : Type} `{Countable C, Countable A}.

(** A transaction row: its index label and the two identifier columns. *)
Record row := Row { index : Z; customer_id : C; article_id : A }.

(** A row of the labeled table. *)
Record labeled_row := LRow { l_customer_id : C; l_article_id : A; label : Z }.

(** A table read from disk has the default index 0, 1, ..., n-1. *)
Definition range_index (df : list row) : Prop :=
  index <$> df = seqZ 0 (Z.of_nat (length df)).

(** *** train_test_no_coldstart *)

Definition valid_customers (train : list row) : gset C :=
  list_to_set (customer_id <$> train).

Definition valid_articles (train : list row) : gset A :=
  list_to_set (article_id <$> train).

(** A row of the candidate pool is valid when both identifiers occur in
    train. *)
Definition is_valid (train : list row) (r : row) : Prop :=
  customer_id r ∈ valid_customers train ∧ article_id r ∈ valid_articles train.

Global Instance is_valid_dec train r : Decision (is_valid train r).
Proof. unfold is_valid. apply _. Defined.

Section splitter.
Variable transactions : list row.
Variable factor : Z.

Definition n : Z := Z.of_nat (length transactions).
Definition candidate_end : Z := n.

Definition train_at (candidate_start : Z) : list row :=
  iloc transactions (candidate_start - 5 * factor) candidate_start.

Definition candidate_test_at (candidate_start : Z) : list row :=
  iloc transactions candidate_start candidate_end.

Definition valid_test_at (candidate_start : Z) : list row :=
  filter (is_valid (train_at candidate_start)) (candidate_test_at candidate_start).

(** The while loop.  Besides the outcome it records the candidate starts
    whose window was built, in the order they were tried.  [None] means the
    fuel ran out. *)
Fixpoint search (fuel : nat) (candidate_start : Z)
  : option (list Z * result (list row * list row)) :=
  match fuel with
  | O => None
  | S fuel' =>
    if decide (candidate_start >= 5 * factor) then
      let train := train_at candidate_start in
      let valid_test := valid_test_at candidate_start in
      if decide (Z.of_nat (length valid_test) >= factor) then
        let test := iloc_from valid_test (- factor) in
        Some ([candidate_start], Ok (train, test))
      else
        match search fuel' (candidate_start - factor) with
        | Some (tried, out) => Some (candidate_start :: tried, out)
        | None => None
        end
    else Some ([], Raise ValueError)
  end.

Definition train_test_no_coldstart_trace
  : option (list Z * result (list row * list row)) :=
  search (S (length transactions)) (n - factor).

Definition train_test_no_coldstart : option (result (list row * list row)) :=
  snd <$> train_test_no_coldstart_trace.

End splitter.

(** *** train_test *)

(** [transactions[a:b]] on a DataFrame slices the rows by position. *)
Definition train_test (transactions : list row) (factor : Z)
  : list row * list row :=
  let train := iloc transactions (-5 * factor) (- factor) in
  let test := iloc_from transactions (- factor) in
  (train, test).

(** *** get_labels_no_coldstart *)

Section labeler.
Context {RS : Type} `{RandomSource RS}.
Context {na : IsNA C} {order : SetOrder A}.

(** [pos_df]: the two identifier columns with [label = 1]. *)
Definition positives (train_transactions : list row) : list labeled_row :=
  (λ r, LRow (customer_id r) (article_id r) 1) <$> train_transactions.

(** [pos_df.groupby('customer_id')['article_id'].agg(set).to_dict()]:
    [groupby] leaves out the rows whose key is missing. *)
Definition user_to_articles (pos_df : list labeled_row) : gmap C (gset A) :=
  foldr (λ r m,
           if isna (l_customer_id r) then m
           else <[l_customer_id r :=
                    {[l_article_id r]} ∪ default ∅ (m !! l_customer_id r)]> m)
        ∅ pos_df.

Definition all_articles (train_transactions : list row) : gset A :=
  list_to_set (article_id <$> train_transactions).

(** The loop over [pos_df.iterrows()] that fills [neg_rows]. *)
Fixpoint negative_rows (u2a : gmap C (gset A)) (all : gset A)
    (rows : list labeled_row) : M RS (list labeled_row) :=
  match rows with
  | [] => ret []
  | r :: rest =>
    let user := l_customer_id r in
    match u2a !! user with
    | None => raise KeyError
    | Some seen =>
      let candidate_articles := set_to_list (all ∖ seen) in
      match candidate_articles with
      | [] => negative_rows u2a all rest
      | _ =>
        neg_article <- np_random_choice candidate_articles ;;
        neg_rows <- negative_rows u2a all rest ;;
        ret (LRow user neg_article 0 :: neg_rows)
      end
    end
  end.

(** Lines 105-130: seed the global generator, then draw the negatives. *)
Definition generate_negatives (train_transactions : list row)
    (random_state : option Z) : M RS (list labeled_row) :=
  _ <- match random_state with
       | Some seed => np_random_seed seed
       | None => ret tt
       end ;;
  let pos_df := positives train_transactions in
  negative_rows (user_to_articles pos_df) (all_articles train_transactions) pos_df.

(** Lines 134-142: sample the larger group down. *)
Definition balance (pos_df neg_df : list labeled_row) (random_state : option Z)
  : M RS (list labeled_row * list labeled_row) :=
  let num_pos := length pos_df in
  let num_neg := length neg_df in
  if decide (num_neg < num_pos)%nat then
    pos_df' <- df_sample pos_df num_neg random_state ;;
    ret (pos_df', neg_df)
  else if decide (num_pos < num_neg)%nat then
    neg_df' <- df_sample neg_df num_pos random_state ;;
    ret (pos_df, neg_df')
  else ret (pos_df, neg_df).

Definition balanced_groups (train_transactions : list row)
    (random_state : option Z) : M RS (list labeled_row * list labeled_row) :=
  neg_df <- generate_negatives train_transactions random_state ;;
  balance (positives train_transactions) neg_df random_state.

Definition get_labels_no_coldstart (train_transactions : list row)
    (random_state : option Z) : M RS (list labeled_row) :=
  groups <- balanced_groups train_transactions random_state ;;
  let labeled_df := groups.1 ++ groups.2 in
  df_sample labeled_df (length labeled_df) random_state.

End labeler.

(** The articles of the rows of customer [u]. *)
Definition interacted_articles (tbl : list row) (u : C) : gset A :=
  list_to_set (article_id <$> filter (λ t, customer_id t = u) tbl).

(** Customer [u] has a row with every article of the table, so no negative
    can be drawn for [u]. *)
Definition saturated (tbl : list row) (u : C) : Prop :=
  all_articles tbl ⊆ interacted_articles tbl u.

Global Instance saturated_dec tbl u : Decision (saturated tbl u).
Proof. unfold saturated. apply _. Defined.

(** Number of rows of a labeled table with a given label. *)
Definition count_label (l : Z) (df : list labeled_row) : nat :=
  length (filter (λ r, label r = l) df).

End tables.

(** ** read_data *)

(** What loading yields: the value, or the name [pd.read_csv] could not
    open. *)
Inductive loaded (T : Type) :=
  | Loaded (x : T)
  | FileNotFoundError (name : string).
Arguments Loaded {T} x.
Arguments FileNotFoundError {T} name.

Section ingestion.
Context {T : Type}.

(** The files that exist, by name, with the table each parses to. *)
Variable files : string → option T.

Definition pd_read_csv (name : string) : loaded T :=
  match files name with
  | Some table => Loaded table
  | None => FileNotFoundError name
  end.

Definition read_data (path : string) : loaded (T * T * T) :=
  match pd_read_csv (path +:+ "customers.csv") with
  | FileNotFoundError name => FileNotFoundError name
  | Loaded customers =>
    match pd_read_csv (path +:+ "articles.csv") with
    | FileNotFoundError name => FileNotFoundError name
    | Loaded articles =>
      match pd_read_csv (path +:+ "transactions_train.csv") with
      | FileNotFoundError name => FileNotFoundError name
      | Loaded transactions => Loaded (customers, articles, transactions)
      end
    end
  end.

End ingestion.

(** The default of the [path] argument. *)
Definition default_path : string := "./data".

(** ** A small random source and small tables *)

(** A counter as generator: the index drawn is the counter modulo the
    bound, the permutation drawn is the reversal. *)
Definition counter_seed (seed : Z) : option Z :=
  if decide (0 ≤ seed < 2 ^ 32) then Some seed else None.

Definition counter_randint (g : Z) (k : nat) : nat * Z :=
  ((Z.to_nat g `mod` k)%nat, g + 1).

Definition counter_permutation (g : Z) (k : nat) : list nat * Z :=
  (reverse (seq 0 k), g + 1).

Global Instance counter_source : RandomSource Z := {|
  rs_seed := counter_seed;
  rs_randint := counter_randint;
  rs_permutation := counter_permutation;
  rs_randint_lt g k Hk :=
    Nat.mod_upper_bound (Z.to_nat g) k (proj2 (Nat.neq_0_lt_0 k) Hk);
  rs_permutation_perm g k := reverse_Permutation (seq 0 k)
|}.

(** Numbers and strings are never missing; [None] is. *)
Global Instance nat_isna : IsNA nat := λ _, false.

Global Instance string_isna : IsNA string := λ _, false.

Global Instance option_isna {T : Type} : IsNA (option T) :=
  λ x, match x with Some _ => false | None => true end.

(** Two set orders: the one of [elements], and its reversal. *)
Definition elements_order (T : Type) `{Countable T} : SetOrder T := {|
  set_to_list := elements;
  set_to_list_perm X := reflexivity (elements X)
|}.

Definition reversed_order (T : Type) `{Countable T} : SetOrder T := {|
  set_to_list X := reverse (elements X);
  set_to_list_perm X := reverse_Permutation (elements X)
|}.

Global Instance nat_set_order : SetOrder nat := elements_order nat.

(** [k] rows with the default index; row [i] has customer [i mod cm] and
    article [i mod am]. *)
Definition cyclic_table (cm am : nat) (k : nat) : list (@row nat nat) :=
  (λ i, Row (Z.of_nat i) (i `mod` cm)%nat (i `mod` am)%nat) <$> seq 0 k.

(** [k] rows with the default index, every customer and article unique. *)
Definition unique_table (k : nat) : list (@row nat nat) :=
  (λ i, Row (Z.of_nat i) i i) <$> seq 0 k.

(** Twelve rows over two customers and three articles, then two rows whose
    customers and articles occur nowhere else: with [factor = 2] the first
    window finds no valid test row and the search moves back once. *)
Definition cold_tail_table : list (@row nat nat) :=
  cyclic_table 2 3 12 ++ [Row 12 7%nat 7%nat; Row 13 8%nat 8%nat].

Definition cold_tail_train : list (@row nat nat) := take 10 (cyclic_table 2 3 12).

Definition cold_tail_test : list (@row nat nat) := drop 10 (cyclic_table 2 3 12).

(** Three input rows: customer 0 bought both articles, customer 1 only
    article 1.  Only the last row has a candidate negative. *)
Definition small_table : list (@row nat nat) :=
  [Row 0 0%nat 0%nat; Row 1 0%nat 1%nat; Row 2 1%nat 1%nat].

Definition small_negatives : list (@labeled_row nat nat) :=
  [LRow 1%nat 0%nat 0].

Definition small_labeled : list (@labeled_row nat nat) :=
  [LRow 1%nat 0%nat 0; LRow 1%nat 1%nat 1].

(** Thirteen rows over two customers and three articles, then one row
    whose customer and article occur nowhere else: with [factor = 2] the
    first window has one valid test row, the second has three, of which
    the last two are kept. *)
Definition late_cold_table : list (@row nat nat) :=
  cyclic_table 2 3 13 ++ [Row 13 8%nat 8%nat].

Definition late_cold_train : list (@row nat nat) := take 10 (cyclic_table 2 3 13).

Definition late_cold_test : list (@row nat nat) :=
  [Row 11 1%nat 2%nat; Row 12 0%nat 0%nat].

(** Three rows with [str] identifiers: customer u1 lacks the articles b
    and c, so the order in which that set is listed decides which one a
    draw picks. *)
Definition str_table : list (@row string string) :=
  [Row 0 "u1" "a"; Row 1 "u2" "b"; Row 2 "u2" "c"].

Definition str_labeled_elements : list (@labeled_row string string) :=
  [LRow "u2" "a" 0; LRow "u2" "a" 0; LRow "u1" "c" 0;
   LRow "u2" "c" 1; LRow "u2" "b" 1; LRow "u1" "a" 1].

Definition str_labeled_reversed : list (@labeled_row string string) :=
  [LRow "u2" "a" 0; LRow "u2" "a" 0; LRow "u1" "b" 0;
   LRow "u2" "c" 1; LRow "u2" "b" 1; LRow "u1" "a" 1].

(** Two rows, the second with a missing customer_id. *)
Definition missing_customer_table : list (@row (option nat) nat) :=
  [Row 0 (Some 0%nat) 0%nat; Row 1 None 1%nat].

(** Two customers who both bought the only article. *)
Definition one_article_table : list (@row nat nat) :=
  [Row 0 0%nat 0%nat; Row 1 1%nat 0%nat].

(** Six rows over two customers and four articles; each customer has two
    of the four articles. *)
Definition half_table : list (@row nat nat) := cyclic_table 2 4 6.

Definition half_labeled : list (@labeled_row nat nat) :=
  Eval vm_compute in
    match (get_labels_no_coldstart half_table (Some 7) 0).1 with
    | Ok out => out
    | Raise _ => []
    end.

(** A file system whose only files are the three tables inside the
    directory ./data/. *)
Definition data_directory (name : string) : option nat :=
  if String.prefix "./data/" name then
    if decide (name = "./data/customers.csv") then Some 1%nat
    else if decide (name = "./data/articles.csv") then Some 2%nat
    else if decide (name = "./data/transactions_train.csv") then Some 3%nat
    else None
  else None.

(** * Properties of the splitter *)

Section list_facts.
Context {X : Type}.
Implicit Types l : list X.

Lemma clip_in_range (len i : Z) : 0 ≤ i ≤ len → clip len i = i.
Proof. intros Hi. unfold clip. case_decide; lia. Qed.

Lemma iloc_sublist l (start stop : Z) : iloc l start stop `sublist_of` l.
Proof.
  unfold iloc. etrans; [apply sublist_take | apply sublist_drop].
Qed.

Lemma iloc_from_sublist l (start : Z) : iloc_from l start `sublist_of` l.
Proof. apply sublist_drop. Qed.

Lemma iloc_in_range l (a b : Z) :
  0 ≤ a ≤ b → b ≤ Z.of_nat (length l) →
  iloc l a b = take (Z.to_nat (b - a)) (drop (Z.to_nat a) l).
Proof.
  intros Ha Hb. unfold iloc. rewrite !clip_in_range by lia. done.
Qed.

Lemma iloc_to_end l (a : Z) :
  0 ≤ a ≤ Z.of_nat (length l) →
  iloc l a (Z.of_nat (length l)) = drop (Z.to_nat a) l.
Proof.
  intros Ha. rewrite iloc_in_range by lia.
  apply take_ge. rewrite length_drop. lia.
Qed.

(** [l.iloc[-k:]] keeps the last [k] items when there are at least [k]. *)
Lemma iloc_from_last l (k : Z) :
  0 < k ≤ Z.of_nat (length l) →
  iloc_from l (- k) = drop (length l - Z.to_nat k) l.
Proof.
  intros Hk. unfold iloc_from, clip. case_decide; [|lia].
  f_equal. lia.
Qed.

Lemma iloc_from_last_length l (k : Z) :
  0 < k ≤ Z.of_nat (length l) →
  Z.of_nat (length (iloc_from l (- k))) = k.
Proof.
  intros Hk. rewrite iloc_from_last by done. rewrite length_drop. lia.
Qed.

Lemma StronglySorted_sublist (R : relation X) l1 l2 :
  l1 `sublist_of` l2 → StronglySorted R l2 → StronglySorted R l1.
Proof.
  induction 1 as [|x l1 l2 Hsub IH|x l1 l2 Hsub IH]; intros Hs.
  - constructor.
  - apply StronglySorted_cons in Hs as [Hall Hs].
    apply StronglySorted_cons. split; [|by apply IH].
    rewrite Forall_forall in Hall |- *.
    intros y Hy. apply Hall. by eapply elem_of_sublist.
  - apply StronglySorted_cons in Hs as [_ Hs]. by apply IH.
Qed.

End list_facts.

Section sorted_facts.

Lemma seq_strongly_sorted (a k : nat) : StronglySorted lt (seq a k).
Proof.
  revert a. induction k as [|k IH]; intros a; simpl; constructor; [done|].
  apply Forall_seq. lia.
Qed.

Lemma seqZ_strongly_sorted (m k : Z) : StronglySorted Z.lt (seqZ m k).
Proof.
  unfold seqZ. eapply StronglySorted_fmap; [|apply seq_strongly_sorted].
  intros x y Hxy. simpl. lia.
Qed.

Lemma StronglySorted_fmap_inv {X Y : Type} (f : X → Y) (R : relation Y) (l : list X) :
  StronglySorted R (f <$> l) → StronglySorted (λ x y, R (f x) (f y)) l.
Proof.
  induction l as [|x l IH]; csimpl; intros Hs; [constructor|].
  apply StronglySorted_cons in Hs as [Hall Hs].
  constructor; [by apply IH|]. by rewrite Forall_fmap in Hall.
Qed.

Lemma seqZ_take_drop (m k a b : Z) :
  0 ≤ b → 0 ≤ a → b + a ≤ k →
  take (Z.to_nat a) (drop (Z.to_nat b) (seqZ m k)) = seqZ (m + b) a.
Proof.
  intros Hb Ha Hk.
  replace k with (b + (a + (k - b - a))) by lia.
  rewrite seqZ_app by lia. rewrite drop_app_length' by (by rewrite length_seqZ).
  rewrite seqZ_app by lia. apply take_app_length'. by rewrite length_seqZ.
Qed.

Lemma seqZ_drop (m k b : Z) :
  0 ≤ b ≤ k → drop (Z.to_nat b) (seqZ m k) = seqZ (m + b) (k - b).
Proof.
  intros Hb. replace k with (b + (k - b)) at 1 by lia.
  rewrite seqZ_app by lia. apply drop_app_length'. by rewrite length_seqZ.
Qed.

End sorted_facts.

Section splitter_theory.
Context {C A : Type} `{Countable C, Countable A}.
Variable transactions : list (@row C A).
Variable factor : Z.

Local Abbreviation n := (n transactions).
Local Abbreviation train_at := (train_at transactions factor).
Local Abbreviation candidate_test_at := (candidate_test_at transactions).
Local Abbreviation valid_test_at := (valid_test_at transactions factor).
Local Abbreviation search := (search transactions factor).
Local Abbreviation num_valid c := (Z.of_nat (length (valid_test_at c))).

(** Every candidate start on the trace is the initial one moved back by a
    whole number of steps, and lies at or above the loop bound. *)
Lemma search_tried fuel cs tried out :
  search fuel cs = Some (tried, out) →
  ∀ (i : nat) c, tried !! i = Some c → c = cs - Z.of_nat i * factor ∧ 5 * factor ≤ c.
Proof.
  revert cs tried out. induction fuel as [|fuel IH]; intros cs tried out; [done|].
  simpl. case_decide as Hcs; [|intros [= <- <-]; by intros i c].
  case_decide as Hlen.
  - intros [= <- <-] [|i] c; [|by destruct i]. intros [= <-]. lia.
  - destruct (search fuel (cs - factor)) as [[tried' out']|] eqn:Hrec; [|done].
    intros [= <- <-] [|i] c; simpl.
    + intros [= <-]. lia.
    + intros Hi. destruct (IH _ _ _ Hrec i c Hi) as [-> ?]. lia.
Qed.

(** What a successful search returns. *)
Lemma search_ok_inv fuel cs tried train test :
  search fuel cs = Some (tried, Ok (train, test)) →
  ∃ c, last tried = Some c ∧ 5 * factor ≤ c ≤ cs ∧
       train = train_at c ∧
       test = iloc_from (valid_test_at c) (- factor) ∧
       factor ≤ num_valid c ∧
       Forall (λ c', num_valid c' < factor) (take (length tried - 1) tried).
Proof.
  revert cs tried. induction fuel as [|fuel IH]; intros cs tried; [done|].
  simpl. case_decide as Hcs; [|done].
  case_decide as Hlen.
  - intros [= <- <- <-]. exists cs. repeat split; try done; lia.
  - destruct (search fuel (cs - factor)) as [[tried' out']|] eqn:Hrec; [|done].
    intros [= <- ->].
    destruct (IH _ _ Hrec) as (c & Hlast & Hc & -> & -> & Hge & Hall).
    exists c. repeat split; try done; try lia.
    + destruct tried'; [done|]. by rewrite last_cons_cons.
    + destruct tried' as [|c' tried']; [done|].
      simpl in *. rewrite Nat.sub_0_r in *. constructor; [lia|done].
Qed.

(** What a failed search has seen. *)
Lemma search_raise_inv fuel cs tried e :
  search fuel cs = Some (tried, Raise e) →
  e = ValueError ∧
  Forall (λ c, num_valid c < factor) tried ∧
  cs - Z.of_nat (length tried) * factor < 5 * factor.
Proof.
  revert cs tried. induction fuel as [|fuel IH]; intros cs tried; [done|].
  simpl. case_decide as Hcs.
  - case_decide as Hlen; [done|].
    destruct (search fuel (cs - factor)) as [[tried' out']|] eqn:Hrec; [|done].
    intros [= <- ->]. destruct (IH _ _ Hrec) as (-> & Hall & Hend).
    split; [done|]. split; [constructor; [lia|done]|].
    simpl length. lia.
  - intros [= <- <-]. split; [done|]. split; [constructor|]. simpl. lia.
Qed.

(** The fuel handed to the loop is enough: the search always ends. *)
Lemma search_total fuel cs :
  cs ≤ Z.of_nat fuel → is_Some (search (S fuel) cs).
Proof.
  revert cs. induction fuel as [|fuel IH]; intros cs Hcs.
  - simpl. case_decide; [|by eexists]. case_decide; [by eexists|]. lia.
  - change (search (S (S fuel)) cs) with
      (if decide (cs >= 5 * factor) then
         if decide (num_valid cs >= factor) then
           Some ([cs], Ok (train_at cs, iloc_from (valid_test_at cs) (- factor)))
         else match search (S fuel) (cs - factor) with
              | Some (tried, out) => Some (cs :: tried, out)
              | None => None
              end
       else Some ([], Raise ValueError)).
    case_decide; [|by eexists]. case_decide as Hlen; [by eexists|].
    destruct (IH (cs - factor)) as [[tried out] ->]; [lia|by eexists].
Qed.

Lemma train_test_no_coldstart_trace_total :
  is_Some (train_test_no_coldstart_trace transactions factor).
Proof.
  unfold train_test_no_coldstart_trace.
  destruct (decide (0 < factor)) as [Hf|Hf].
  - apply search_total. unfold n. lia.
  - simpl. unfold n. case_decide; [|lia]. case_decide; [by eexists|lia].
Qed.

Lemma train_test_no_coldstart_trace_of out :
  train_test_no_coldstart transactions factor = Some out →
  ∃ tried, train_test_no_coldstart_trace transactions factor = Some (tried, out).
Proof.
  unfold train_test_no_coldstart.
  destruct (train_test_no_coldstart_trace transactions factor) as [[tried o]|];
    simpl; [|done].
  intros [= <-]. by exists tried.
Qed.

(** The window found by a successful call, with its bounds. *)
Lemma train_test_no_coldstart_window tried train test :
  train_test_no_coldstart_trace transactions factor = Some (tried, Ok (train, test)) →
  ∃ c, last tried = Some c ∧ 5 * factor ≤ c ≤ n - factor ∧
       train = train_at c ∧
       test = iloc_from (valid_test_at c) (- factor) ∧
       factor ≤ num_valid c.
Proof.
  intros Hrun. apply search_ok_inv in Hrun as (c & ? & ? & ? & ? & ? & _).
  by exists c.
Qed.

Lemma train_at_in_range c :
  0 ≤ factor → 5 * factor ≤ c ≤ n →
  train_at c = take (Z.to_nat (5 * factor)) (drop (Z.to_nat (c - 5 * factor)) transactions).
Proof.
  intros Hf Hc. unfold train_at, n in *.
  rewrite iloc_in_range by lia. do 2 f_equal. lia.
Qed.

Lemma candidate_test_at_in_range c :
  0 ≤ c ≤ n → candidate_test_at c = drop (Z.to_nat c) transactions.
Proof.
  intros Hc. unfold candidate_test_at, candidate_end, n in *.
  by apply iloc_to_end.
Qed.

Lemma valid_test_at_sublist c : valid_test_at c `sublist_of` candidate_test_at c.
Proof. apply sublist_filter. Qed.

Lemma elem_of_valid_test_at c r :
  r ∈ valid_test_at c ↔ is_valid (train_at c) r ∧ r ∈ candidate_test_at c.
Proof. apply list_elem_of_filter. Qed.

Lemma is_valid_spec (train : list (@row C A)) (r : @row C A) :
  is_valid train r ↔
  customer_id r ∈ (customer_id <$> train) ∧ article_id r ∈ (article_id <$> train).
Proof.
  unfold is_valid, valid_customers, valid_articles.
  by rewrite !elem_of_list_to_set.
Qed.

(** C1: whenever train_test_no_coldstart returns (train, test), every row
    of test has its customer_id among the customer_ids of train and its
    article_id among the article_ids of train. *)
Theorem test_rows_seen_in_train train test :
  train_test_no_coldstart transactions factor = Some (Ok (train, test)) →
  ∀ r, r ∈ test →
    customer_id r ∈ (customer_id <$> train) ∧ article_id r ∈ (article_id <$> train).
Proof.
  intros [tried Hrun]%train_test_no_coldstart_trace_of r Hr.
  apply train_test_no_coldstart_window in Hrun as (c & _ & _ & -> & -> & _).
  apply is_valid_spec.
  eapply elem_of_sublist in Hr; [|apply iloc_from_sublist].
  by apply elem_of_valid_test_at in Hr as [? _].
Qed.

(** C3: for a positive factor, whenever train_test_no_coldstart returns
    (train, test), train has exactly 5*factor rows and test has exactly
    factor rows. *)
Theorem split_sizes train test :
  0 < factor →
  train_test_no_coldstart transactions factor = Some (Ok (train, test)) →
  Z.of_nat (length train) = 5 * factor ∧ Z.of_nat (length test) = factor.
Proof.
  intros Hf [tried Hrun]%train_test_no_coldstart_trace_of.
  apply train_test_no_coldstart_window in Hrun as (c & _ & Hc & -> & -> & Hlen).
  split.
  - rewrite train_at_in_range by lia.
    rewrite length_take, length_drop. unfold n in *. lia.
  - apply iloc_from_last_length. lia.
Qed.

Lemma range_index_sorted :
  range_index transactions →
  StronglySorted (λ r q : @row C A, index r < index q) transactions.
Proof.
  intros Hidx. apply StronglySorted_fmap_inv. rewrite Hidx.
  apply seqZ_strongly_sorted.
Qed.

Lemma test_sublist_pool c :
  iloc_from (valid_test_at c) (- factor) `sublist_of` candidate_test_at c.
Proof. etrans; [apply iloc_from_sublist | apply valid_test_at_sublist]. Qed.

Lemma candidate_test_at_sublist c : candidate_test_at c `sublist_of` transactions.
Proof. apply iloc_sublist. Qed.

(** C4: the call always ends; it raises ValueError exactly when none of the
    windows it tried has at least factor valid test rows, which is when no
    window n - k*factor (k >= 1) above the loop bound has; it raises for
    every table with n < 5*factor + factor rows; and a returned test set
    never has fewer than factor rows. *)
Theorem insufficient_data_error :
  ∃ tried out,
    train_test_no_coldstart_trace transactions factor = Some (tried, out) ∧
    train_test_no_coldstart transactions factor = Some out ∧
    (∀ e, out = Raise e → e = ValueError) ∧
    (out = Raise ValueError ↔ Forall (λ c, num_valid c < factor) tried) ∧
    (out = Raise ValueError ↔
       ∀ k : nat, 5 * factor ≤ n - (Z.of_nat k + 1) * factor →
                  num_valid (n - (Z.of_nat k + 1) * factor) < factor) ∧
    (n < 5 * factor + factor → out = Raise ValueError) ∧
    (∀ train test, out = Ok (train, test) → factor ≤ Z.of_nat (length test)).
Proof.
  destruct train_test_no_coldstart_trace_total as [[tried out] Hrun].
  exists tried, out. split; [done|].
  split; [unfold train_test_no_coldstart; by rewrite Hrun|].
  pose proof (search_tried _ _ _ _ Hrun) as Htried.
  destruct out as [[train test]|e].
  - destruct (train_test_no_coldstart_window _ _ _ Hrun)
      as (c & Hlast & Hc & -> & -> & Hlen).
    split; [done|]. split; [|split; [|split]].
    + split; [done|]. intros Hall. apply last_Some_elem_of in Hlast.
      rewrite Forall_forall in Hall. specialize (Hall c Hlast). simpl in Hall. lia.
    + split; [done|]. intros Hall. exfalso.
      rewrite last_lookup in Hlast.
      destruct (Htried _ _ Hlast) as [Heq _].
      specialize (Hall (pred (length tried))).
      replace (n - (Z.of_nat (pred (length tried)) + 1) * factor) with c in Hall by lia.
      lia.
    + lia.
    + intros ? ? [= <- <-]. destruct (decide (0 < factor)) as [Hf|Hf]; [|lia].
      rewrite iloc_from_last_length; lia.
  - apply search_raise_inv in Hrun as (-> & Hall & Hend).
    split; [by intros ? [= <-]|]. split; [done|].
    split; [|split; [done|by intros ? ?]].
    split; [|done]. intros _ k Hk.
    assert (0 < factor) as Hf.
    { destruct tried as [|c tried]; [simpl in Hend; unfold n in *; lia|].
      apply Forall_cons in Hall as [Hc _]. simpl in Hc. lia. }
    assert (k < length tried)%nat as Hlt by nia.
    destruct (lookup_lt_is_Some_2 tried k Hlt) as [c Hc].
    destruct (Htried _ _ Hc) as [Heq _].
    apply (Forall_lookup_1 _ _ _ _ Hall) in Hc. simpl in Hc.
    replace (n - (Z.of_nat k + 1) * factor) with c by lia. done.
Qed.

(** C5: on a table with the default index, the test set returned is made of
    valid rows of the candidate pool found, and every valid row of that
    pool left out of test comes before every row of test. *)
Theorem test_is_latest_valid tried train test :
  range_index transactions →
  train_test_no_coldstart_trace transactions factor = Some (tried, Ok (train, test)) →
  ∃ c, last tried = Some c ∧
    (∀ q, q ∈ test → q ∈ candidate_test_at c ∧ is_valid train q) ∧
    (∀ r q, r ∈ candidate_test_at c → is_valid train r → r ∉ test →
            q ∈ test → index r < index q).
Proof.
  intros Hidx Hrun.
  apply train_test_no_coldstart_window in Hrun as (c & Hlast & _ & -> & -> & _).
  exists c. split; [done|]. split.
  - intros q Hq. eapply elem_of_sublist in Hq; [|apply iloc_from_sublist].
    apply elem_of_valid_test_at in Hq. tauto.
  - intros r q Hr Hvalid Hout Hq.
    assert (r ∈ valid_test_at c) as Hin by (by apply elem_of_valid_test_at).
    assert (StronglySorted (λ r q : @row C A, index r < index q) (valid_test_at c))
      as Hsorted.
    { eapply StronglySorted_sublist; [|by apply range_index_sorted].
      etrans; [apply valid_test_at_sublist | apply candidate_test_at_sublist]. }
    unfold iloc_from in Hout, Hq.
    set (k := Z.to_nat (clip (Z.of_nat (length (valid_test_at c))) (- factor))) in *.
    rewrite <- (take_drop k (valid_test_at c)) in Hin, Hsorted.
    apply elem_of_app in Hin as [Hin|Hin]; [|done].
    by eapply (StronglySorted_app_1_elem_of _ _ _ r q Hsorted).
Qed.

(** C8: for a positive factor and a table with the default index, train and
    test are the table restricted to ascending positions: train is the
    block of positions [c - 5*factor, c), test has strictly ascending
    positions inside [c, n), so every train position is before every test
    position. *)
Theorem split_preserves_order tried train test :
  0 < factor →
  range_index transactions →
  train_test_no_coldstart_trace transactions factor = Some (tried, Ok (train, test)) →
  ∃ c, last tried = Some c ∧
    train `sublist_of` transactions ∧
    test `sublist_of` transactions ∧
    index <$> train = seqZ (c - 5 * factor) (5 * factor) ∧
    StronglySorted Z.lt (index <$> test) ∧
    (∀ t, t ∈ train → c - 5 * factor ≤ index t < c) ∧
    (∀ q, q ∈ test → c ≤ index q < n) ∧
    (∀ t q, t ∈ train → q ∈ test → index t < index q).
Proof.
  intros Hf Hidx Hrun.
  apply train_test_no_coldstart_window in Hrun as (c & Hlast & Hc & -> & -> & _).
  assert (index <$> train_at c = seqZ (c - 5 * factor) (5 * factor)) as Htrain.
  { rewrite train_at_in_range by lia. rewrite fmap_take, fmap_drop, Hidx.
    rewrite seqZ_take_drop; [f_equal; lia|lia|lia|unfold n in *; lia]. }
  assert (test_sub : iloc_from (valid_test_at c) (- factor) `sublist_of` transactions).
  { etrans; [apply test_sublist_pool | apply candidate_test_at_sublist]. }
  assert (∀ t, t ∈ train_at c → c - 5 * factor ≤ index t < c) as Htr.
  { intros t Ht. apply (list_elem_of_fmap_2 index) in Ht.
    rewrite Htrain in Ht. apply elem_of_seqZ in Ht. lia. }
  assert (∀ q, q ∈ iloc_from (valid_test_at c) (- factor) → c ≤ index q < n) as Hte.
  { intros q Hq. eapply elem_of_sublist in Hq; [|apply test_sublist_pool].
    rewrite candidate_test_at_in_range in Hq by lia.
    apply (list_elem_of_fmap_2 index) in Hq.
    rewrite fmap_drop, Hidx, seqZ_drop in Hq by (unfold n in *; lia).
    apply elem_of_seqZ in Hq. unfold n in *. lia. }
  exists c. split; [done|]. split; [apply iloc_sublist|]. split; [done|].
  split; [done|]. split.
  { apply (StronglySorted_fmap _ (λ r q : @row C A, index r < index q)); [done|].
    eapply StronglySorted_sublist; [done|by apply range_index_sorted]. }
  split; [done|]. split; [done|].
  intros t q Ht Hq. specialize (Htr t Ht). specialize (Hte q Hq). lia.
Qed.

(** C9 (amended): for a positive factor and a table of n >= 5*factor +
    factor rows on which the search fails, the last window tried starts at
    5*factor + n mod factor; it starts at 5*factor exactly when factor
    divides n. *)
Theorem last_window_tried tried e :
  0 < factor →
  n >= 5 * factor + factor →
  train_test_no_coldstart_trace transactions factor = Some (tried, Raise e) →
  last tried = Some (5 * factor + n `mod` factor) ∧
  (last tried = Some (5 * factor) ↔ n `mod` factor = 0).
Proof.
  intros Hf Hn Hrun.
  pose proof (search_tried _ _ _ _ Hrun) as Htried.
  apply search_raise_inv in Hrun as (-> & _ & Hend).
  assert (last tried = Some (5 * factor + n `mod` factor)) as Hlast.
  { destruct (last tried) as [c|] eqn:Hlast.
    - rewrite last_lookup in Hlast.
      assert (length tried ≠ 0%nat) as Hne.
      { intros Hz. destruct tried; [done|discriminate]. }
      destruct (Htried _ _ Hlast) as [Heq Hge]. f_equal.
      assert (c - 5 * factor = n `mod` factor); [|lia].
      apply (Z.mod_unique_pos _ _ (Z.of_nat (length tried) + 5)); nia.
    - apply last_None in Hlast. subst tried. simpl in Hend. lia. }
  split; [done|]. rewrite Hlast. split.
  - intros [= Heq]. lia.
  - intros ->. f_equal. lia.
Qed.

End splitter_theory.

(** ** The splitter on small tables *)

Example cold_tail_run :
  train_test_no_coldstart_trace cold_tail_table 2 =
    Some ([12; 10], Ok (cold_tail_train, cold_tail_test)).
Proof. vm_compute. reflexivity. Qed.

Lemma test_rows_seen_in_train_witness :
  train_test_no_coldstart cold_tail_table 2 = Some (Ok (cold_tail_train, cold_tail_test)) ∧
  ∀ r, r ∈ cold_tail_test →
    customer_id r ∈ (customer_id <$> cold_tail_train) ∧
    article_id r ∈ (article_id <$> cold_tail_train).
Proof.
  split; [vm_compute; reflexivity|].
  apply (test_rows_seen_in_train cold_tail_table 2). vm_compute. reflexivity.
Defined.

Lemma split_sizes_witness :
  0 < 2 ∧
  train_test_no_coldstart cold_tail_table 2 = Some (Ok (cold_tail_train, cold_tail_test)) ∧
  Z.of_nat (length cold_tail_train) = 5 * 2 ∧ Z.of_nat (length cold_tail_test) = 2.
Proof.
  split; [lia|]. split; [vm_compute; reflexivity|].
  apply (split_sizes cold_tail_table 2); [lia|vm_compute; reflexivity].
Defined.

(** The pool found on [late_cold_table] has three valid rows; the first of
    them is left out of test. *)
Example late_cold_left_out :
  filter (is_valid late_cold_train) (candidate_test_at late_cold_table 10) =
    Row 10 0%nat 1%nat :: late_cold_test.
Proof. vm_compute. reflexivity. Qed.

Lemma test_is_latest_valid_witness :
  range_index late_cold_table ∧
  train_test_no_coldstart_trace late_cold_table 2 =
    Some ([12; 10], Ok (late_cold_train, late_cold_test)) ∧
  ∃ c, last [12; 10] = Some c ∧
    (∀ q, q ∈ late_cold_test →
          q ∈ candidate_test_at late_cold_table c ∧ is_valid late_cold_train q) ∧
    (∀ r q, r ∈ candidate_test_at late_cold_table c → is_valid late_cold_train r →
            r ∉ late_cold_test → q ∈ late_cold_test → index r < index q).
Proof.
  split; [vm_compute; reflexivity|]. split; [vm_compute; reflexivity|].
  apply (test_is_latest_valid late_cold_table 2); vm_compute; reflexivity.
Defined.

Lemma split_preserves_order_witness :
  0 < 2 ∧
  range_index cold_tail_table ∧
  train_test_no_coldstart_trace cold_tail_table 2 =
    Some ([12; 10], Ok (cold_tail_train, cold_tail_test)) ∧
  ∃ c, last [12; 10] = Some c ∧
    cold_tail_train `sublist_of` cold_tail_table ∧
    cold_tail_test `sublist_of` cold_tail_table ∧
    index <$> cold_tail_train = seqZ (c - 5 * 2) (5 * 2) ∧
    StronglySorted Z.lt (index <$> cold_tail_test) ∧
    (∀ t, t ∈ cold_tail_train → c - 5 * 2 ≤ index t < c) ∧
    (∀ q, q ∈ cold_tail_test → c ≤ index q < n cold_tail_table) ∧
    (∀ t q, t ∈ cold_tail_train → q ∈ cold_tail_test → index t < index q).
Proof.
  split; [lia|]. split; [vm_compute; reflexivity|]. split; [vm_compute; reflexivity|].
  apply (split_preserves_order cold_tail_table 2); [lia|vm_compute; reflexivity..].
Defined.

(** C9 (counterexample): on thirteen rows with unique identifiers and
    factor 2 the search fails and the only window tried starts at 11, not
    at 5*2. *)
Lemma last_window_not_at_bound :
  n (unique_table 13) >= 5 * 2 + 2 ∧
  train_test_no_coldstart_trace (unique_table 13) 2 = Some ([11], Raise ValueError) ∧
  last [11] ≠ Some (5 * 2).
Proof.
  split; [vm_compute; discriminate|]. split; [vm_compute; reflexivity|].
  intros [= ?].
Qed.

Lemma last_window_tried_witness :
  0 < 2 ∧
  n (unique_table 13) >= 5 * 2 + 2 ∧
  train_test_no_coldstart_trace (unique_table 13) 2 = Some ([11], Raise ValueError) ∧
  last [11] = Some (5 * 2 + n (unique_table 13) `mod` 2) ∧
  (last [11] = Some (5 * 2) ↔ n (unique_table 13) `mod` 2 = 0).
Proof.
  split; [lia|]. split; [vm_compute; discriminate|]. split; [vm_compute; reflexivity|].
  apply (last_window_tried (unique_table 13) 2 [11] ValueError);
    [lia|vm_compute; discriminate|vm_compute; reflexivity].
Defined.

(** * Properties of the labeler *)

Local Open Scope nat_scope.

Section monad_facts.
Context {RS : Type}.

Lemma bind_ok {T U : Type} (m : M RS T) (k : T → M RS U) g y g' :
  bind m k g = (Ok y, g') ↔ ∃ x g1, m g = (Ok x, g1) ∧ k x g1 = (Ok y, g').
Proof.
  unfold bind. destruct (m g) as [[x|e] g1]; split.
  - intros Hk. by exists x, g1.
  - by intros (? & ? & [= <- <-] & ?).
  - done.
  - by intros (? & ? & [=] & ?).
Qed.

End monad_facts.

Section rows_facts.
Context {X : Type}.
Implicit Types df : list X.

Lemma omap_lookup_seq df (a k : nat) :
  omap (λ i, df !! i) (seq a k) = take k (drop a df).
Proof.
  revert a. induction k as [|k IH]; intros a; [by rewrite take_0|].
  simpl. rewrite IH. destruct (df !! a) as [x|] eqn:Hx.
  - by rewrite (drop_S _ _ _ Hx).
  - apply lookup_ge_None in Hx. rewrite !drop_ge by lia. by rewrite !take_nil.
Qed.

Lemma omap_lookup_all df : omap (λ i, df !! i) (seq 0 (length df)) = df.
Proof. rewrite omap_lookup_seq, drop_0. by apply take_ge. Qed.

Lemma mapM_omap {Y : Type} (f : Y → option X) (l : list Y) (k : list X) :
  mapM f l = Some k → omap f l = k.
Proof.
  rewrite mapM_Some. induction 1 as [|x y l k Hxy _ IH]; csimpl; [done|].
  rewrite Hxy. by f_equal.
Qed.

(** The rows at the first [size] entries of a permutation of the positions:
    [size] of them, drawn without repetition. *)
Lemma take_rows_of_permutation df (p : list nat) (size : nat) (rows : list X) :
  p ≡ₚ seq 0 (length df) → size ≤ length df →
  mapM (λ i, df !! i) (take size p) = Some rows →
  length rows = size ∧ rows ⊆+ df ∧ (size = length df → rows ≡ₚ df).
Proof.
  intros Hp Hsize Hrows. split; [|split].
  - apply length_mapM in Hrows. rewrite <- Hrows, length_take, Hp, length_seq. lia.
  - apply mapM_omap in Hrows. subst rows.
    trans (omap (λ i, df !! i) p); [|by rewrite Hp, omap_lookup_all].
    assert (omap (λ i, df !! i) p =
            omap (λ i, df !! i) (take size p) ++ omap (λ i, df !! i) (drop size p))
      as -> by (by rewrite <- omap_app, take_drop).
    by apply submseteq_inserts_r.
  - intros ->. apply mapM_omap in Hrows. subst rows.
    rewrite take_ge by (rewrite Hp, length_seq; lia).
    by rewrite Hp, omap_lookup_all.
Qed.

Lemma take_rows_defined df (p : list nat) (size : nat) :
  p ≡ₚ seq 0 (length df) → is_Some (mapM (λ i, df !! i) (take size p)).
Proof.
  intros Hp. apply mapM_is_Some, Forall_forall. intros i Hi. simpl.
  apply lookup_lt_is_Some. apply elem_of_take in Hi as (j & Hj & _).
  apply list_elem_of_lookup_2 in Hj. rewrite Hp in Hj.
  apply elem_of_seq in Hj. lia.
Qed.

End rows_facts.

Section sampling_facts.
Context {RS : Type} `{RandomSource RS}.

Lemma sample_permutation_ok random_state k (g : RS) p g' :
  sample_permutation random_state k g = (Ok p, g') → p ≡ₚ seq 0 k.
Proof.
  unfold sample_permutation. destruct random_state as [seed|].
  - destruct (rs_seed seed) as [g1|]; [|done]. intros [= <- <-].
    apply rs_permutation_perm.
  - pose proof (rs_permutation_perm g k) as Hperm.
    destruct (rs_permutation g k) as [p0 g0]. by intros [= <- <-].
Qed.

Lemma sample_permutation_total random_state k (g : RS) :
  seed_accepted random_state →
  ∃ p g', sample_permutation random_state k g = (Ok p, g').
Proof.
  unfold sample_permutation, seed_accepted. destruct random_state as [seed|].
  - intros [g1 ->]. eauto.
  - intros _. destruct (rs_permutation g k) as [p0 g0]. eauto.
Qed.

Lemma df_sample_ok {X : Type} (df : list X) size random_state (g : RS) rows g' :
  df_sample df size random_state g = (Ok rows, g') →
  length rows = size ∧ rows ⊆+ df ∧ (size = length df → rows ≡ₚ df).
Proof.
  unfold df_sample. case_decide as Hsize; [|done].
  intros (p & g1 & Hp & Hrows)%bind_ok. apply sample_permutation_ok in Hp.
  unfold take_rows in Hrows.
  destruct (mapM (λ i, df !! i) (take size p)) as [rows0|] eqn:Hm; [|done].
  injection Hrows as <- <-. by eapply take_rows_of_permutation.
Qed.

Lemma df_sample_total {X : Type} (df : list X) size random_state (g : RS) :
  size ≤ length df → seed_accepted random_state →
  ∃ rows g', df_sample df size random_state g = (Ok rows, g').
Proof.
  intros Hsize Hseed. unfold df_sample. rewrite decide_True by done.
  destruct (sample_permutation_total random_state (length df) g Hseed)
    as (p & g1 & Hp).
  unfold bind. rewrite Hp. apply sample_permutation_ok in Hp.
  destruct (take_rows_defined df p size Hp) as [rows Hrows].
  unfold take_rows. rewrite Hrows. by eexists _, _.
Qed.

Lemma np_random_choice_ok {X : Type} (items : list X) (g : RS) x g' :
  np_random_choice items g = (Ok x, g') → x ∈ items.
Proof.
  unfold np_random_choice. destruct items as [|x0 items]; [done|].
  destruct (rs_randint g (length (x0 :: items))) as [i g1].
  destruct ((x0 :: items) !! i) as [y|] eqn:Hy; [|done].
  intros [= <- <-]. by eapply list_elem_of_lookup_2.
Qed.

Lemma np_random_choice_total {X : Type} (items : list X) (g : RS) :
  items ≠ [] → ∃ x g', np_random_choice items g = (Ok x, g').
Proof.
  intros Hne. unfold np_random_choice. destruct items as [|x0 items]; [done|].
  pose proof (rs_randint_lt g (length (x0 :: items))) as Hlt.
  destruct (rs_randint g (length (x0 :: items))) as [i g1].
  destruct (lookup_lt_is_Some_2 (x0 :: items) i) as [y Hy]; [apply Hlt; simpl; lia|].
  rewrite Hy. by eexists _, _.
Qed.

End sampling_facts.

Section labeler_theory.
Context {C A : Type} `{Countable C, Countable A}.
Context {RS : Type} `{RandomSource RS}.
Context `{!IsNA C, !SetOrder A}.
Implicit Types tbl : list (@row C A).
Implicit Types pos negs out : list (@labeled_row C A).
Implicit Types g : RS.

Lemma elem_of_positives tbl r :
  r ∈ positives tbl ↔
  ∃ t, t ∈ tbl ∧ r = LRow (customer_id t) (article_id t) 1%Z.
Proof.
  unfold positives. rewrite list_elem_of_fmap.
  split; intros (t & ? & ?); by exists t.
Qed.

Lemma positives_label tbl : Forall (λ r, label r = 1%Z) (positives tbl).
Proof.
  apply Forall_forall. by intros r (t & _ & ->)%elem_of_positives.
Qed.

(** The dict maps a customer to the articles of that customer's rows; a
    missing customer is no key. *)
Lemma user_to_articles_lookup pos u a :
  a ∈ default ∅ (user_to_articles pos !! u) ↔
  isna u = false ∧ ∃ r, r ∈ pos ∧ l_customer_id r = u ∧ l_article_id r = a.
Proof.
  induction pos as [|r pos IH]; simpl.
  - rewrite lookup_empty. simpl. split; [by intros ?%not_elem_of_empty|].
    by intros (_ & r & ?%elem_of_nil & _).
  - destruct (isna (l_customer_id r)) eqn:Hna.
    { rewrite IH. split.
      - intros (? & r' & ? & ? & ?). split; [done|]. exists r'.
        rewrite elem_of_cons. auto.
      - intros (Hu & r' & [->|?]%elem_of_cons & Heq & ?); [congruence|].
        split; [done|]. by exists r'. }
    rewrite lookup_insert. case_decide as Hu; simpl.
    + subst u. rewrite elem_of_union, elem_of_singleton, IH. split.
      * intros [->|(_ & r' & ? & ? & ?)]; (split; [done|]);
          [exists r|exists r']; rewrite elem_of_cons; auto.
      * intros (_ & r' & [->|?]%elem_of_cons & ? & ?); [by left|right].
        split; [done|]. by exists r'.
    + rewrite IH. split.
      * intros (? & r' & ? & ? & ?). split; [done|]. exists r'.
        rewrite elem_of_cons. auto.
      * intros (? & r' & [->|?]%elem_of_cons & ? & ?); [done|].
        split; [done|]. by exists r'.
Qed.

Lemma user_to_articles_is_Some pos r :
  r ∈ pos → isna (l_customer_id r) = false →
  is_Some (user_to_articles pos !! l_customer_id r).
Proof.
  induction pos as [|r' pos IH]; [by intros ?%elem_of_nil|].
  intros Hr Hna. simpl. apply elem_of_cons in Hr as [->|Hr].
  - rewrite Hna, lookup_insert. by rewrite decide_True.
  - destruct (isna (l_customer_id r')); [by apply IH|].
    rewrite lookup_insert. case_decide; [by eexists|by apply IH].
Qed.

Lemma user_to_articles_key pos u :
  is_Some (user_to_articles pos !! u) → isna u = false.
Proof.
  induction pos as [|r pos IH]; simpl; [rewrite lookup_empty; by intros [? ?]|].
  destruct (isna (l_customer_id r)) eqn:Hna; [done|].
  rewrite lookup_insert. case_decide as Hu; [by subst u|done].
Qed.

(** The loop emits at most one row per positive row, in order, each with
    label 0 and an article taken from the pool minus the customer's own. *)
Lemma negative_rows_ok (u2a : gmap C (gset A)) (all : gset A) pos g negs g' :
  negative_rows u2a all pos g = (Ok negs, g') →
  l_customer_id <$> negs `sublist_of` l_customer_id <$> pos ∧
  Forall (λ r, label r = 0%Z ∧
               ∃ seen, u2a !! l_customer_id r = Some seen ∧
                       l_article_id r ∈ all ∖ seen) negs.
Proof.
  revert g negs g'. induction pos as [|r pos IH]; intros g negs g'; simpl.
  - intros [= <- <-]. split; [done|constructor].
  - destruct (u2a !! l_customer_id r) as [seen|] eqn:Hseen; [|done].
    destruct (set_to_list (all ∖ seen)) as [|a0 cands] eqn:Hcands.
    + intros Hrec. destruct (IH _ _ _ Hrec) as [Hsub Hall].
      split; [by apply sublist_cons|done].
    + intros (a & g1 & Ha & (negs' & g2 & Hrec & Hret)%bind_ok)%bind_ok.
      injection Hret as <- <-.
      apply np_random_choice_ok in Ha. rewrite <- Hcands in Ha.
      rewrite set_to_list_perm in Ha. apply elem_of_elements in Ha.
      destruct (IH _ _ _ Hrec) as [Hsub Hall].
      split; [csimpl; by apply sublist_skip|].
      constructor; [|done]. simpl. split; [done|]. by exists seen.
Qed.

Lemma negative_rows_total (u2a : gmap C (gset A)) (all : gset A) pos g :
  (∀ r, r ∈ pos → is_Some (u2a !! l_customer_id r)) →
  ∃ negs g', negative_rows u2a all pos g = (Ok negs, g').
Proof.
  revert g. induction pos as [|r pos IH]; intros g Hdom; simpl.
  - by eexists _, _.
  - destruct (Hdom r) as [seen ->]; [by left|].
    assert (∀ r', r' ∈ pos → is_Some (u2a !! l_customer_id r')) as Hdom'.
    { intros r' Hr'. apply Hdom. by right. }
    destruct (set_to_list (all ∖ seen)) as [|a0 cands] eqn:Hcands; [by apply IH|].
    destruct (np_random_choice_total (a0 :: cands) g) as (a & g1 & Ha); [done|].
    destruct (IH g1 Hdom') as (negs & g2 & Hrec).
    unfold bind. rewrite Ha, Hrec. by eexists _, _.
Qed.

Lemma generate_negatives_inv tbl random_state g negs g' :
  generate_negatives tbl random_state g = (Ok negs, g') →
  ∃ g0, negative_rows (user_to_articles (positives tbl)) (all_articles tbl)
          (positives tbl) g0 = (Ok negs, g').
Proof. intros (? & g0 & _ & Hrows)%bind_ok. by exists g0. Qed.

Lemma generate_negatives_total tbl random_state g :
  seed_accepted random_state →
  Forall (λ t, isna (customer_id t) = false) tbl →
  ∃ negs g', generate_negatives tbl random_state g = (Ok negs, g').
Proof.
  intros Hseed Hpresent. unfold generate_negatives, bind.
  assert (∃ g0, match random_state with
                | Some seed => np_random_seed seed
                | None => ret ()
                end g = (Ok (), g0)) as [g0 ->].
  { destruct random_state as [seed|]; [|by eexists].
    destruct Hseed as [g0 Hg0]. exists g0. unfold np_random_seed. by rewrite Hg0. }
  apply negative_rows_total. intros r Hr. apply user_to_articles_is_Some; [done|].
  apply elem_of_positives in Hr as (t & Ht & ->). simpl.
  by apply (Forall_forall (λ t, isna (customer_id t) = false) tbl).
Qed.

(** What the generated negatives are, in terms of the input table. *)
Lemma generate_negatives_ok tbl random_state g negs g' :
  generate_negatives tbl random_state g = (Ok negs, g') →
  l_customer_id <$> negs `sublist_of` customer_id <$> tbl ∧
  Forall (λ r, label r = 0%Z ∧
               l_article_id r ∈ (article_id <$> tbl) ∧
               ¬ ∃ t, t ∈ tbl ∧ customer_id t = l_customer_id r ∧
                      article_id t = l_article_id r) negs.
Proof.
  intros [g0 Hrows]%generate_negatives_inv.
  apply negative_rows_ok in Hrows as [Hsub Hall]. split.
  - unfold positives in Hsub. by rewrite <- list_fmap_compose in Hsub.
  - eapply Forall_impl; [done|]. simpl.
    intros r (Hlabel & seen & Hseen & [Hall_a Hnot]%elem_of_difference).
    split; [done|]. split; [by apply elem_of_list_to_set in Hall_a|].
    intros (t & Ht & Hcust & Hart). apply Hnot.
    assert (l_article_id r ∈
            default ∅ (user_to_articles (positives tbl) !! l_customer_id r)) as Hin.
    { apply user_to_articles_lookup. split.
      - apply (user_to_articles_key (positives tbl)). by rewrite Hseen.
      - exists (LRow (customer_id t) (article_id t) 1%Z).
        split; [apply elem_of_positives; by exists t|done]. }
    by rewrite Hseen in Hin.
Qed.

Lemma generate_negatives_length tbl random_state g negs g' :
  generate_negatives tbl random_state g = (Ok negs, g') →
  length negs ≤ length (positives tbl).
Proof.
  intros [Hsub _]%generate_negatives_ok. apply sublist_length in Hsub.
  unfold positives. by rewrite !length_fmap in *.
Qed.

(** With no more negatives than positives, balancing leaves the negatives
    alone and keeps as many positives, each at most once. *)
Lemma balance_ok pos negs random_state g pos' negs' g' :
  length negs ≤ length pos →
  balance pos negs random_state g = (Ok (pos', negs'), g') →
  negs' = negs ∧ pos' ⊆+ pos ∧ length pos' = length negs.
Proof.
  intros Hlen. unfold balance. case_decide as Hlt.
  - intros (rows & g1 & Hrows & [= <- <- <-])%bind_ok.
    apply df_sample_ok in Hrows as (? & ? & _). done.
  - rewrite decide_False by lia. intros [= <- <- <-].
    split; [done|]. split; [done|lia].
Qed.

Lemma balance_total pos negs random_state g :
  length negs ≤ length pos → seed_accepted random_state →
  ∃ groups g', balance pos negs random_state g = (Ok groups, g').
Proof.
  intros Hlen Hseed. unfold balance. case_decide as Hlt.
  - destruct (df_sample_total pos (length negs) random_state g)
      as (rows & g1 & Hrows); [lia|done|].
    unfold bind. rewrite Hrows. by eexists _, _.
  - rewrite decide_False by lia. by eexists _, _.
Qed.

(** The stages of a call that returns a table. *)
Lemma get_labels_no_coldstart_stages tbl random_state g out g' :
  get_labels_no_coldstart tbl random_state g = (Ok out, g') →
  ∃ negs g1 pos',
    generate_negatives tbl random_state g = (Ok negs, g1) ∧
    pos' ⊆+ positives tbl ∧ length pos' = length negs ∧
    out ≡ₚ pos' ++ negs.
Proof.
  intros ([pos' negs'] & g2 & Hgroups & Hshuffle)%bind_ok.
  apply bind_ok in Hgroups as (negs & g1 & Hneg & Hbal).
  apply balance_ok in Hbal as (-> & Hsub & Hlen);
    [|by eapply generate_negatives_length].
  apply df_sample_ok in Hshuffle as (_ & _ & Hperm).
  exists negs, g1, pos'. split; [done|]. split; [done|]. split; [done|].
  by apply Hperm.
Qed.

Lemma get_labels_no_coldstart_total tbl random_state g :
  seed_accepted random_state →
  Forall (λ t, isna (customer_id t) = false) tbl →
  ∃ out g', get_labels_no_coldstart tbl random_state g = (Ok out, g').
Proof.
  intros Hseed Hpresent.
  destruct (generate_negatives_total tbl random_state g Hseed Hpresent)
    as (negs & g1 & Hneg).
  destruct (balance_total (positives tbl) negs random_state g1)
    as (groups & g2 & Hbal); [by eapply generate_negatives_length|done|].
  destruct (df_sample_total (groups.1 ++ groups.2) (length (groups.1 ++ groups.2))
              random_state g2) as (out & g3 & Hout); [done|done|].
  exists out, g3. unfold get_labels_no_coldstart, balanced_groups, bind.
  by rewrite Hneg, Hbal.
Qed.

Lemma filter_all {X : Type} (P : X → Prop) `{∀ x, Decision (P x)} (l : list X) :
  Forall P l → filter P l = l.
Proof.
  induction 1 as [|x l Hx _ IH]; [done|]. by rewrite filter_cons_True, IH.
Qed.

Lemma filter_none {X : Type} (P : X → Prop) `{∀ x, Decision (P x)} (l : list X) :
  Forall (λ x, ¬ P x) l → filter P l = [].
Proof.
  induction 1 as [|x l Hx _ IH]; [done|]. by rewrite filter_cons_False.
Qed.

(** In a shuffle of positives and negatives, the rows with label 1 are
    the positives and the rows with label 0 are the negatives. *)
Lemma labeled_groups pos negs out :
  Forall (λ r, label r = 1%Z) pos → Forall (λ r, label r = 0%Z) negs →
  out ≡ₚ pos ++ negs →
  filter (λ r, label r = 1%Z) out ≡ₚ pos ∧ filter (λ r, label r = 0%Z) out ≡ₚ negs.
Proof.
  intros Hpos Hnegs ->. rewrite !filter_app. split.
  - rewrite (filter_all _ pos) by done. rewrite (filter_none _ negs).
    + by rewrite app_nil_r.
    + eapply Forall_impl; [done|]. simpl. by intros r ->.
  - rewrite (filter_all _ negs) by done. rewrite (filter_none _ pos); [done|].
    eapply Forall_impl; [done|]. simpl. by intros r ->.
Qed.

(** The label-1 and label-0 rows of a returned table. *)
Lemma get_labels_no_coldstart_groups tbl random_state g out g' :
  get_labels_no_coldstart tbl random_state g = (Ok out, g') →
  ∃ negs g1 pos',
    generate_negatives tbl random_state g = (Ok negs, g1) ∧
    pos' ⊆+ positives tbl ∧ length pos' = length negs ∧
    filter (λ r, label r = 1%Z) out ≡ₚ pos' ∧
    filter (λ r, label r = 0%Z) out ≡ₚ negs.
Proof.
  intros (negs & g1 & pos' & Hneg & Hsub & Hlen & Hperm)%get_labels_no_coldstart_stages.
  exists negs, g1, pos'. split; [done|]. split; [done|]. split; [done|].
  apply labeled_groups; [| |done].
  - apply Forall_forall. intros r Hr.
    eapply (Forall_forall (λ r, label r = 1%Z)); [apply (positives_label tbl)|].
    by eapply elem_of_submseteq.
  - apply generate_negatives_ok in Hneg as [_ Hall].
    eapply Forall_impl; [done|]. simpl. tauto.
Qed.

(** C2: for a non-empty table the call returns a table whenever the seed is
    accepted and no customer_id is missing, and a returned table has as
    many rows with label 1 as with label 0, namely the size of the smaller
    of the two groups before balancing.  Nothing is duplicated: its
    label-0 rows are the generated negatives, each once, and its label-1
    rows are input rows, each kept at most once. *)
Theorem labels_balanced tbl random_state g :
  tbl ≠ [] →
  (seed_accepted random_state →
   Forall (λ t, isna (customer_id t) = false) tbl →
   ∃ out g', get_labels_no_coldstart tbl random_state g = (Ok out, g')) ∧
  (∀ out g', get_labels_no_coldstart tbl random_state g = (Ok out, g') →
     ∃ negs g1,
       generate_negatives tbl random_state g = (Ok negs, g1) ∧
       count_label 1 out = count_label 0 out ∧
       count_label 0 out = length (positives tbl) `min` length negs ∧
       length out = 2 * (length (positives tbl) `min` length negs) ∧
       filter (λ r, label r = 0%Z) out ≡ₚ negs ∧
       filter (λ r, label r = 1%Z) out ⊆+ positives tbl ∧
       count_label 1 out ≤ length tbl).
Proof.
  intros _. split; [apply get_labels_no_coldstart_total|].
  intros out g' Hrun.
  destruct (get_labels_no_coldstart_stages _ _ _ _ _ Hrun)
    as (negs & g1 & pos0 & Hneg & _ & Hlen0 & Hperm).
  destruct (get_labels_no_coldstart_groups _ _ _ _ _ Hrun)
    as (negs' & g1' & pos' & Hneg' & Hsub & Hlen & Hp & Hn).
  rewrite Hneg in Hneg'. injection Hneg' as <- <-.
  pose proof (generate_negatives_length _ _ _ _ _ Hneg) as Hle.
  exists negs, g1. split; [done|].
  unfold count_label. rewrite Hp, Hn.
  split; [done|]. split; [lia|].
  split; [rewrite Hperm, length_app; lia|].
  split; [done|]. split; [done|].
  apply submseteq_length in Hsub. unfold positives in Hsub.
  by rewrite length_fmap in Hsub.
Qed.

(** C6: every row with label 0 of a returned table has an article that
    occurs in the input table and that its customer has no input row
    with. *)
Theorem negatives_not_interacted tbl random_state g out g' :
  get_labels_no_coldstart tbl random_state g = (Ok out, g') →
  ∀ r, r ∈ out → label r = 0%Z →
    l_article_id r ∈ (article_id <$> tbl) ∧
    ¬ ∃ t, t ∈ tbl ∧ customer_id t = l_customer_id r ∧
           article_id t = l_article_id r.
Proof.
  intros (negs & g1 & pos' & Hneg & _ & _ & _ & Hn)%get_labels_no_coldstart_groups r Hr Hlabel.
  assert (r ∈ negs) as Hin.
  { rewrite <- Hn. by apply list_elem_of_filter. }
  apply generate_negatives_ok in Hneg as [_ Hall].
  rewrite Forall_forall in Hall. destruct (Hall r Hin) as (_ & ? & ?). done.
Qed.

(** Under one set order, a seeded call does not depend on the state the
    global generator was in before: the negatives drawn, the groups kept
    by balancing and the final table are the same. *)
Lemma seeded_labeler_ignores_prior_state tbl (seed : Z) g1 g2 :
  (generate_negatives tbl (Some seed) g1).1 = (generate_negatives tbl (Some seed) g2).1 ∧
  (balanced_groups tbl (Some seed) g1).1 = (balanced_groups tbl (Some seed) g2).1 ∧
  (get_labels_no_coldstart tbl (Some seed) g1).1 =
    (get_labels_no_coldstart tbl (Some seed) g2).1.
Proof.
  unfold get_labels_no_coldstart, balanced_groups, generate_negatives.
  unfold bind, np_random_seed.
  destruct (rs_seed seed) as [g0|]; done.
Qed.

(** C10: the negatives generated are at most one per input row, in input
    order, so there are never more negatives than positives: the branch
    that samples the negatives down is not taken, balancing returns the
    negatives unchanged and only ever drops positives. *)
Theorem negatives_at_most_positives tbl random_state g negs g1 :
  generate_negatives tbl random_state g = (Ok negs, g1) →
  l_customer_id <$> negs `sublist_of` customer_id <$> tbl ∧
  length negs ≤ length (positives tbl) ∧
  ¬ (length (positives tbl) < length negs) ∧
  (∀ g2 pos' negs' g3,
     balance (positives tbl) negs random_state g2 = (Ok (pos', negs'), g3) →
     negs' = negs ∧ pos' ⊆+ positives tbl) ∧
  (∀ out g', get_labels_no_coldstart tbl random_state g = (Ok out, g') →
     filter (λ r, label r = 0%Z) out ≡ₚ negs ∧
     filter (λ r, label r = 1%Z) out ⊆+ positives tbl).
Proof.
  intros Hneg. pose proof (generate_negatives_length _ _ _ _ _ Hneg) as Hlen.
  split; [by apply generate_negatives_ok in Hneg as [? _]|].
  split; [done|]. split; [lia|]. split.
  - intros g2 pos' negs' g3 Hbal.
    apply balance_ok in Hbal as (? & ? & _); done.
  - intros out g' (negs0 & g0 & pos' & Hneg0 & Hsub & _ & Hp & Hn)%get_labels_no_coldstart_groups.
    rewrite Hneg in Hneg0. injection Hneg0 as <- <-. by rewrite Hp.
Qed.

End labeler_theory.

(** ** The labeler on a small table *)

Example small_table_run :
  get_labels_no_coldstart small_table (Some 5%Z) 0%Z = (Ok small_labeled, 6%Z).
Proof. vm_compute. reflexivity. Qed.

Example missing_customer_run :
  get_labels_no_coldstart missing_customer_table (Some 5%Z) 0%Z =
    (Raise KeyError, 6%Z).
Proof. vm_compute. reflexivity. Qed.

(** C7: the same table and the same seed give different tables under two
    set orders.  For the three str rows and seed 0, from the same
    generator state, the negative of customer u1 is article c when the
    candidates are listed as by [elements] and article b when they are
    listed in reverse, so the returned tables differ. *)
Theorem seeded_labeler_order_dependent :
  (get_labels_no_coldstart (order:=elements_order string) str_table (Some 0%Z) 0%Z).1 =
    Ok str_labeled_elements ∧
  (get_labels_no_coldstart (order:=reversed_order string) str_table (Some 0%Z) 0%Z).1 =
    Ok str_labeled_reversed ∧
  str_labeled_elements ≠ str_labeled_reversed.
Proof.
  split; [vm_compute; reflexivity|]. split; [vm_compute; reflexivity|].
  discriminate.
Qed.

Lemma labels_balanced_witness :
  small_table ≠ [] ∧
  (seed_accepted (RS:=Z) (Some 5%Z) →
   Forall (λ t, isna (customer_id t) = false) small_table →
   ∃ out g', get_labels_no_coldstart small_table (Some 5%Z) 0%Z = (Ok out, g')) ∧
  (∀ out g', get_labels_no_coldstart small_table (Some 5%Z) 0%Z = (Ok out, g') →
     ∃ negs g1,
       generate_negatives small_table (Some 5%Z) 0%Z = (Ok negs, g1) ∧
       count_label 1 out = count_label 0 out ∧
       count_label 0 out = length (positives small_table) `min` length negs ∧
       length out = 2 * (length (positives small_table) `min` length negs) ∧
       filter (λ r, label r = 0%Z) out ≡ₚ negs ∧
       filter (λ r, label r = 1%Z) out ⊆+ positives small_table ∧
       count_label 1 out ≤ length small_table).
Proof.
  split; [discriminate|].
  apply (labels_balanced small_table (Some 5%Z) 0%Z). discriminate.
Defined.

Lemma negatives_not_interacted_witness :
  get_labels_no_coldstart small_table (Some 5%Z) 0%Z = (Ok small_labeled, 6%Z) ∧
  ∀ r, r ∈ small_labeled → label r = 0%Z →
    l_article_id r ∈ (article_id <$> small_table) ∧
    ¬ ∃ t, t ∈ small_table ∧ customer_id t = l_customer_id r ∧
           article_id t = l_article_id r.
Proof.
  split; [vm_compute; reflexivity|].
  apply (negatives_not_interacted small_table (Some 5%Z) 0%Z small_labeled 6%Z).
  vm_compute. reflexivity.
Defined.

Lemma negatives_at_most_positives_witness :
  generate_negatives small_table (Some 5%Z) 0%Z = (Ok small_negatives, 6%Z) ∧
  l_customer_id <$> small_negatives `sublist_of` customer_id <$> small_table ∧
  length small_negatives ≤ length (positives small_table) ∧
  ¬ (length (positives small_table) < length small_negatives) ∧
  (∀ g2 pos' negs' g3,
     balance (positives small_table) small_negatives (Some 5%Z) g2 =
       (Ok (pos', negs'), g3) →
     negs' = small_negatives ∧ pos' ⊆+ positives small_table) ∧
  (∀ out g', get_labels_no_coldstart small_table (Some 5%Z) 0%Z = (Ok out, g') →
     filter (λ r, label r = 0%Z) out ≡ₚ small_negatives ∧
     filter (λ r, label r = 1%Z) out ⊆+ positives small_table).
Proof.
  split; [vm_compute; reflexivity|].
  apply (negatives_at_most_positives small_table (Some 5%Z) 0%Z small_negatives 6%Z).
  vm_compute. reflexivity.
Defined.

(** * Further properties: the plain split *)

Local Open Scope Z_scope.

Section train_test_theory.
Context {C A : Type} `{Countable C, Countable A}.
Variable transactions : list (@row C A).
Variable factor : Z.

Local Abbreviation n := (n transactions).

(** For a positive factor both slice bounds count from the end, and the
    two slices meet. *)
Lemma train_test_bounds :
  0 < factor →
  ∃ a b : nat,
    Z.of_nat a = Z.max 0 (n - 5 * factor) ∧ Z.of_nat b = Z.max 0 (n - factor) ∧
    (train_test transactions factor).1 = take (b - a) (drop a transactions) ∧
    (train_test transactions factor).2 = drop b transactions.
Proof.
  intros Hf.
  exists (Z.to_nat (Z.max 0 (n - 5 * factor))), (Z.to_nat (Z.max 0 (n - factor))).
  split; [lia|]. split; [lia|]. unfold train_test, iloc, iloc_from, clip. simpl.
  rewrite !decide_True by lia. fold n.
  replace (-5 * factor + n) with (n - 5 * factor) by lia.
  replace (- factor + n) with (n - factor) by lia.
  split; [|done]. f_equal. lia.
Qed.

Lemma take_drop_meet {X : Type} (l : list X) (a b : nat) :
  (a ≤ b)%nat → take (b - a) (drop a l) ++ drop b l = drop a l.
Proof.
  intros Hab. rewrite <- (take_drop (b - a) (drop a l)) at 2.
  rewrite drop_drop. do 2 f_equal. lia.
Qed.

(** X1: with at least 5*factor rows, train is 4*factor rows, test is the
    last factor rows, and together they are the last 5*factor rows of the
    table, in order. *)
Theorem train_test_sizes :
  0 < factor → 5 * factor ≤ n →
  Z.of_nat (length (train_test transactions factor).1) = 4 * factor ∧
  Z.of_nat (length (train_test transactions factor).2) = factor ∧
  (train_test transactions factor).1 ++ (train_test transactions factor).2 =
    drop (Z.to_nat (n - 5 * factor)) transactions.
Proof.
  intros Hf Hn. destruct (train_test_bounds Hf) as (a & b & Ha & Hb & -> & ->).
  unfold n in *. split; [|split].
  - rewrite length_take, length_drop. lia.
  - rewrite length_drop. lia.
  - rewrite take_drop_meet by lia. f_equal. lia.
Qed.

(** X2: with fewer than 5*factor rows nothing is raised and no row is
    dropped: train and test together are the whole table, test being the
    last factor rows, or the whole table when it has fewer. *)
Theorem train_test_short_table :
  0 < factor → n ≤ 5 * factor →
  (train_test transactions factor).1 ++ (train_test transactions factor).2 =
    transactions ∧
  Z.of_nat (length (train_test transactions factor).2) = Z.min n factor ∧
  (n ≤ factor → train_test transactions factor = ([], transactions)).
Proof.
  intros Hf Hn. destruct (train_test_bounds Hf) as (a & b & Ha & Hb & Htrain & Htest).
  unfold n in *. assert (a = 0%nat) as -> by lia. split; [|split].
  - rewrite Htrain, Htest, take_drop_meet by lia. done.
  - rewrite Htest, length_drop. lia.
  - intros Hsmall. assert (b = 0%nat) as -> by lia.
    rewrite (surjective_pairing (train_test transactions factor)).
    by rewrite Htrain, Htest.
Qed.

(** X3: for a factor that is zero or negative, train is empty and test is
    the table without its first -factor rows; for factor 0 test is the
    whole table. *)
Theorem train_test_nonpositive_factor :
  factor ≤ 0 →
  train_test transactions factor = ([], drop (Z.to_nat (- factor)) transactions).
Proof.
  intros Hf. unfold train_test, iloc, iloc_from, clip.
  rewrite !decide_False by lia. f_equal.
  - replace (Z.to_nat _) with 0%nat by lia. done.
  - destruct (decide (- factor ≤ Z.of_nat (length transactions))) as [Hle|Hgt].
    + f_equal. lia.
    + rewrite !drop_ge by lia. done.
Qed.

End train_test_theory.

(** * Further properties: the cold-start-free split *)

Section splitter_more.
Context {C A : Type} `{Countable C, Countable A}.
Variable transactions : list (@row C A).
Variable factor : Z.

Local Abbreviation n := (n transactions).
Local Abbreviation train_at := (train_at transactions factor).
Local Abbreviation candidate_test_at := (candidate_test_at transactions).
Local Abbreviation valid_test_at := (valid_test_at transactions factor).
Local Abbreviation search := (search transactions factor).
Local Abbreviation num_valid c := (Z.of_nat (length (valid_test_at c))).

(** The window a successful call stops at is the first one moved back by
    as many steps as windows were tried. *)
Lemma found_window_position tried train test :
  train_test_no_coldstart_trace transactions factor = Some (tried, Ok (train, test)) →
  ∃ c, last tried = Some c ∧ tried ≠ [] ∧
       c = n - Z.of_nat (length tried) * factor ∧
       5 * factor ≤ c ≤ n - factor ∧
       train = train_at c ∧
       test = iloc_from (valid_test_at c) (- factor) ∧
       factor ≤ num_valid c ∧
       Forall (λ c', num_valid c' < factor) (take (length tried - 1) tried).
Proof.
  intros Hrun. pose proof (search_tried transactions factor _ _ _ _ Hrun) as Htried.
  apply search_ok_inv in Hrun as (c & Hlast & Hc & -> & -> & Hlen & Hall).
  exists c. split; [done|].
  assert (tried ≠ []) as Hne by (by intros ->).
  split; [done|]. rewrite last_lookup in Hlast.
  destruct (Htried _ _ Hlast) as [Heq _].
  assert (length tried ≠ 0%nat) by (by destruct tried).
  assert (c = n - Z.of_nat (length tried) * factor) by (unfold n in *; nia).
  repeat split; try done; lia.
Qed.

Lemma train_at_subseteq_prefix c t :
  0 ≤ factor → 5 * factor ≤ c ≤ n →
  t ∈ train_at c → t ∈ take (Z.to_nat c) transactions.
Proof.
  intros Hf Hc. rewrite train_at_in_range by lia.
  rewrite take_drop_commute. intros Ht.
  eapply elem_of_sublist in Ht; [|apply sublist_drop].
  replace (Z.to_nat c) with (Z.to_nat (c - 5 * factor) + Z.to_nat (5 * factor))%nat
    by lia.
  done.
Qed.

Lemma no_repeat_across_split {K : Type} (proj : @row C A → K) (c : nat) r :
  NoDup (proj <$> transactions) →
  r ∈ drop c transactions → proj r ∈ proj <$> take c transactions → False.
Proof.
  rewrite <- (take_drop c transactions) at 1. rewrite fmap_app.
  intros (_ & Hdisj & _)%NoDup_app Hr Hin.
  apply (Hdisj (proj r)); [done|]. by apply list_elem_of_fmap_2.
Qed.

(** X4: for a factor that is zero or negative the call never raises: it
    returns an empty train and an empty test, whatever the table. *)
Theorem nonpositive_factor_returns_empty :
  factor ≤ 0 →
  train_test_no_coldstart transactions factor = Some (Ok ([], [])).
Proof.
  intros Hf.
  assert (train_at (n - factor) = []) as Htrain.
  { unfold train_at, iloc, clip, n. rewrite !decide_False by lia.
    replace (Z.to_nat _) with 0%nat by lia. done. }
  assert (valid_test_at (n - factor) = []) as Hvalid.
  { unfold valid_test_at, candidate_test_at, candidate_end, iloc, clip, n.
    rewrite !decide_False by lia.
    replace (Z.to_nat (_ - _)) with 0%nat by lia. done. }
  unfold train_test_no_coldstart, train_test_no_coldstart_trace. simpl.
  rewrite decide_True by (unfold n; lia).
  rewrite Hvalid, Htrain. simpl. rewrite decide_True by lia.
  unfold iloc_from. by rewrite drop_nil.
Qed.

(** X5: the window a successful call stops at is the most recent one with
    enough valid rows: every window n - k*factor (k >= 1) that lies after
    it has fewer than factor valid rows. *)
Theorem found_window_is_most_recent tried train test :
  0 < factor →
  train_test_no_coldstart_trace transactions factor = Some (tried, Ok (train, test)) →
  ∃ c, last tried = Some c ∧
       c = n - Z.of_nat (length tried) * factor ∧
       factor ≤ num_valid c ∧
       ∀ k : nat, c < n - (Z.of_nat k + 1) * factor →
                  num_valid (n - (Z.of_nat k + 1) * factor) < factor.
Proof.
  intros Hf Hrun. pose proof (search_tried transactions factor _ _ _ _ Hrun) as Htried.
  apply found_window_position in Hrun
    as (c & Hlast & Hne & Hc & _ & _ & _ & Hlen & Hall).
  exists c. split; [done|]. split; [done|]. split; [done|].
  intros k Hk. assert (k < length tried - 1)%nat as Hlt by nia.
  destruct (lookup_lt_is_Some_2 tried k) as [c' Hc']; [lia|].
  destruct (Htried _ _ Hc') as [Heq _].
  rewrite Forall_lookup in Hall. specialize (Hall k c').
  rewrite lookup_take_lt in Hall by done. specialize (Hall Hc'). simpl in Hall.
  replace (n - (Z.of_nat k + 1) * factor) with c' by lia. done.
Qed.

(** X6: for a positive factor the call builds at most max(0, n div factor
    - 5) windows, and exactly that many when it raises. *)
Theorem windows_tried_bound tried out :
  0 < factor →
  train_test_no_coldstart_trace transactions factor = Some (tried, out) →
  Z.of_nat (length tried) ≤ Z.max 0 (n `div` factor - 5) ∧
  (out = Raise ValueError →
   Z.of_nat (length tried) = Z.max 0 (n `div` factor - 5)).
Proof.
  intros Hf Hrun. pose proof (search_tried transactions factor _ _ _ _ Hrun) as Htried.
  assert (Z.of_nat (length tried) ≤ Z.max 0 (n `div` factor - 5)) as Hle.
  { destruct (last tried) as [c|] eqn:Hlast.
    - rewrite last_lookup in Hlast.
      assert (length tried ≠ 0%nat) by (by destruct tried).
      destruct (Htried _ _ Hlast) as [Heq Hge].
      assert (Z.of_nat (length tried) + 5 ≤ n `div` factor); [|lia].
      apply Z.div_le_lower_bound; [done|]. nia.
    - apply last_None in Hlast. subst tried. simpl. lia. }
  split; [done|]. intros ->.
  apply search_raise_inv in Hrun as (_ & _ & Hend).
  assert (n `div` factor < Z.of_nat (length tried) + 6); [|lia].
  apply Z.div_lt_upper_bound; [done|]. nia.
Qed.

(** X7: when no article occurs twice in the table, or no customer does,
    every test candidate is a cold start and the call raises ValueError
    for every positive factor. *)
Theorem all_cold_start_raises :
  0 < factor →
  NoDup (article_id <$> transactions) ∨ NoDup (customer_id <$> transactions) →
  train_test_no_coldstart transactions factor = Some (Raise ValueError).
Proof.
  intros Hf Hnodup.
  destruct (train_test_no_coldstart_trace_total transactions factor)
    as [[tried out] Hrun].
  unfold train_test_no_coldstart. rewrite Hrun. simpl. f_equal.
  destruct out as [[train test]|e];
    [exfalso|by apply search_raise_inv in Hrun as (-> & _)].
  apply found_window_position in Hrun as (c & _ & _ & _ & Hc & _ & _ & Hlen & _).
  destruct (valid_test_at c) as [|r rest] eqn:Hvalid; [simpl in Hlen; lia|].
  assert (r ∈ valid_test_at c) as Hr by (rewrite Hvalid; left).
  apply elem_of_valid_test_at in Hr as [[Hcust Hart]%is_valid_spec Hpool].
  rewrite candidate_test_at_in_range in Hpool by (unfold n in *; lia).
  assert (∀ {K : Type} (proj : @row C A → K),
            proj r ∈ proj <$> train_at c →
            proj r ∈ proj <$> take (Z.to_nat c) transactions) as Hprefix.
  { intros K proj (t & -> & Ht)%list_elem_of_fmap.
    apply list_elem_of_fmap_2.
    apply train_at_subseteq_prefix; [lia|unfold n in *; lia|done]. }
  destruct Hnodup as [Hnodup|Hnodup].
  - eapply (no_repeat_across_split article_id); [done|done|]. by apply Hprefix.
  - eapply (no_repeat_across_split customer_id); [done|done|]. by apply Hprefix.
Qed.

End splitter_more.

Section splitter_compose.
Context {C A : Type} `{Countable C, Countable A}.
Variable transactions : list (@row C A).
Variable factor : Z.

Local Abbreviation n := (n transactions).
Local Abbreviation train_at := (train_at transactions factor).
Local Abbreviation candidate_test_at := (candidate_test_at transactions).
Local Abbreviation valid_test_at := (valid_test_at transactions factor).

(** X8: when the last factor rows are all valid against the 5*factor rows
    before them, the cold-start-free split stops at its first window: its
    test is the test of the plain split, and the train of the plain split
    is its train without the first factor rows. *)
Theorem agrees_with_train_test_when_warm :
  0 < factor → 6 * factor ≤ n →
  Forall (is_valid (train_at (n - factor))) (train_test transactions factor).2 →
  train_test_no_coldstart_trace transactions factor =
    Some ([n - factor],
          Ok (train_at (n - factor), (train_test transactions factor).2)) ∧
  (train_test transactions factor).1 =
    drop (Z.to_nat factor) (train_at (n - factor)).
Proof.
  intros Hf Hn Hwarm.
  destruct (train_test_bounds transactions factor Hf)
    as (a & b & Ha & Hb & Htrain & Htest).
  assert (candidate_test_at (n - factor) = drop b transactions) as Hpool.
  { rewrite candidate_test_at_in_range by (unfold n in *; lia). f_equal. lia. }
  assert (valid_test_at (n - factor) = drop b transactions) as Hvalid.
  { unfold valid_test_at. rewrite Hpool. apply filter_all. by rewrite <- Htest. }
  split.
  - rewrite Htest. unfold train_test_no_coldstart_trace. simpl.
    rewrite decide_True by lia. rewrite Hvalid.
    rewrite decide_True by (rewrite length_drop; unfold n in *; lia).
    rewrite iloc_from_last by (rewrite length_drop; unfold n in *; lia).
    do 4 f_equal. rewrite length_drop.
    replace (length transactions - b - Z.to_nat factor)%nat with 0%nat
      by (unfold n in *; lia).
    done.
  - rewrite Htrain. rewrite train_at_in_range by (unfold n in *; lia).
    replace (Z.to_nat (5 * factor)) with (Z.to_nat factor + (b - a))%nat
      by (unfold n in *; lia).
    rewrite <- take_drop_commute, drop_drop. do 2 f_equal. unfold n in *. lia.
Qed.

(** X9: on success with a positive factor the table is some earlier rows,
    then train, then the candidate pool, with nothing in between; test is
    taken from the pool in order, and the pool has factor rows for each
    window tried. *)
Theorem train_precedes_pool tried train test :
  0 < factor →
  train_test_no_coldstart_trace transactions factor = Some (tried, Ok (train, test)) →
  ∃ before pool,
    transactions = before ++ train ++ pool ∧
    test `sublist_of` pool ∧
    Z.of_nat (length pool) = Z.of_nat (length tried) * factor.
Proof.
  intros Hf Hrun.
  apply found_window_position in Hrun
    as (c & _ & _ & Hc & Hrange & -> & -> & _ & _).
  exists (take (Z.to_nat (c - 5 * factor)) transactions), (candidate_test_at c).
  split; [|split].
  - rewrite train_at_in_range by (unfold n in *; lia).
    rewrite candidate_test_at_in_range by (unfold n in *; lia).
    replace (Z.to_nat (5 * factor))
      with (Z.to_nat c - Z.to_nat (c - 5 * factor))%nat by lia.
    rewrite take_drop_meet by lia. by rewrite take_drop.
  - apply test_sublist_pool.
  - rewrite candidate_test_at_in_range by (unfold n in *; lia).
    rewrite length_drop. unfold n in *. lia.
Qed.

End splitter_compose.

(** * Further properties: the labeler *)

Local Open Scope nat_scope.

Section labeler_more.
Context {C A : Type} `{Countable C, Countable A}.
Context {RS : Type} `{RandomSource RS}.
Context `{!IsNA C, !SetOrder A}.
Implicit Types tbl : list (@row C A).
Implicit Types pos negs out : list (@labeled_row C A).
Implicit Types g : RS.

Lemma no_candidates_iff (all seen : gset A) :
  set_to_list (all ∖ seen) = [] ↔ all ⊆ seen.
Proof.
  rewrite <- Permutation_nil_r, set_to_list_perm, Permutation_nil_r.
  rewrite elements_empty_iff. split.
  - intros Hempty a Ha. destruct (decide (a ∈ seen)) as [|Hna]; [done|].
    exfalso. apply (not_elem_of_empty (C:=gset A) a). rewrite <- Hempty.
    by apply elem_of_difference.
  - intros Hsub a. split; [|by intros ?%not_elem_of_empty].
    intros [Ha Hna]%elem_of_difference. destruct Hna. by apply Hsub.
Qed.

Lemma user_to_articles_interacted tbl u :
  isna u = false →
  default ∅ (user_to_articles (positives tbl) !! u) = interacted_articles tbl u.
Proof.
  intros Hna. apply set_eq. intros a. rewrite user_to_articles_lookup.
  unfold interacted_articles. rewrite elem_of_list_to_set, list_elem_of_fmap. split.
  - intros (_ & r & (t & Ht & ->)%elem_of_positives & Hu & Ha). simpl in *.
    exists t. split; [done|]. by apply list_elem_of_filter.
  - intros (t & -> & [Hu Ht]%list_elem_of_filter). split; [done|].
    exists (LRow (customer_id t) (article_id t) 1%Z).
    split; [apply elem_of_positives; by exists t|done].
Qed.

(** A run of the loop that returns has found every row's customer in the
    dict. *)
Lemma negative_rows_keys (u2a : gmap C (gset A)) (all : gset A) pos g negs g' :
  negative_rows u2a all pos g = (Ok negs, g') →
  ∀ r, r ∈ pos → is_Some (u2a !! l_customer_id r).
Proof.
  revert g negs g'. induction pos as [|r pos IH]; intros g negs g'; simpl.
  - by intros _ r ?%elem_of_nil.
  - destruct (u2a !! l_customer_id r) as [seen|] eqn:Hseen; [|done].
    intros Hrun r' [->|Hr']%elem_of_cons; [by rewrite Hseen|].
    destruct (set_to_list (all ∖ seen)) as [|a0 cands]; [by eapply IH|].
    apply bind_ok in Hrun as (a & g1 & _ & (negs' & g2 & Hrec & _)%bind_ok).
    by eapply IH.
Qed.

(** The loop raises KeyError when some row's customer is no key of the
    dict. *)
Lemma negative_rows_missing_key (u2a : gmap C (gset A)) (all : gset A) pos g :
  Exists (λ r, u2a !! l_customer_id r = None) pos →
  ∃ g', negative_rows u2a all pos g = (Raise KeyError, g').
Proof.
  revert g. induction pos as [|r pos IH]; intros g; [by intros ?%Exists_nil|].
  intros Hex. simpl.
  destruct (u2a !! l_customer_id r) as [seen|] eqn:Hseen; [|by eexists].
  apply Exists_cons in Hex as [Hhead|Htail]; [congruence|].
  destruct (set_to_list (all ∖ seen)) as [|a0 cands]; [by apply IH|].
  destruct (np_random_choice_total (a0 :: cands) g) as (a & g1 & Ha); [done|].
  destruct (IH g1 Htail) as [g2 Hrec].
  unfold bind. rewrite Ha, Hrec. by eexists.
Qed.

Lemma filter_ext_elem {X : Type} (P Q : X → Prop)
    `{!∀ x, Decision (P x), !∀ x, Decision (Q x)} (l : list X) :
  (∀ x, x ∈ l → (P x ↔ Q x)) → filter P l = filter Q l.
Proof.
  induction l as [|x l IH]; intros Hiff; [done|].
  assert (filter P l = filter Q l) as Hrec.
  { apply IH. intros y Hy. apply Hiff. by right. }
  destruct (decide (P x)) as [Hx|Hx].
  - rewrite !filter_cons_True; [by rewrite Hrec|by apply Hiff; [left|]|done].
  - rewrite !filter_cons_False; [done| |done].
    intros Hq. apply Hx. apply Hiff; [by left|done].
Qed.

(** A returned run means no customer_id of the table is missing. *)
Lemma generate_negatives_present tbl random_state g negs g' :
  generate_negatives tbl random_state g = (Ok negs, g') →
  Forall (λ t, isna (customer_id t) = false) tbl.
Proof.
  intros [g0 Hrows]%generate_negatives_inv. apply Forall_forall. intros t Ht.
  apply (user_to_articles_key (positives tbl)).
  apply (negative_rows_keys _ _ _ _ _ _ Hrows
           (LRow (customer_id t) (article_id t) 1%Z)).
  apply elem_of_positives. by exists t.
Qed.

(** The loop emits a row for exactly the positive rows whose customer has
    a candidate article left. *)
Lemma negative_rows_customers (u2a : gmap C (gset A)) (all : gset A) pos g negs g' :
  negative_rows u2a all pos g = (Ok negs, g') →
  l_customer_id <$> negs =
    filter (λ u, ¬ all ⊆ default ∅ (u2a !! u)) (l_customer_id <$> pos).
Proof.
  revert g negs g'. induction pos as [|r pos IH]; intros g negs g'; simpl.
  - by intros [= <- <-].
  - destruct (u2a !! l_customer_id r) as [seen|] eqn:Hseen; [|done].
    destruct (set_to_list (all ∖ seen)) as [|a0 cands] eqn:Hcands.
    + intros Hrec. apply no_candidates_iff in Hcands.
      rewrite filter_cons_False; [by eapply IH|].
      rewrite Hseen. simpl. by intros Hn.
    + intros (a & g1 & Ha & (negs' & g2 & Hrec & Hret)%bind_ok)%bind_ok.
      injection Hret as <- <-.
      rewrite filter_cons_True.
      * csimpl. f_equal. by eapply IH.
      * rewrite Hseen. simpl. intros Hsub%no_candidates_iff.
        by rewrite Hsub in Hcands.
Qed.

Lemma positives_customers tbl :
  l_customer_id <$> positives tbl = customer_id <$> tbl.
Proof. unfold positives. by rewrite <- list_fmap_compose. Qed.

Lemma generate_negatives_customers tbl random_state g negs g' :
  generate_negatives tbl random_state g = (Ok negs, g') →
  l_customer_id <$> negs =
    filter (λ u, ¬ saturated tbl u) (customer_id <$> tbl).
Proof.
  intros Hrun. pose proof (generate_negatives_present _ _ _ _ _ Hrun) as Hpresent.
  apply generate_negatives_inv in Hrun as [g0 Hrows].
  apply negative_rows_customers in Hrows. rewrite Hrows, positives_customers.
  apply filter_ext_elem. intros u (t & -> & Ht)%list_elem_of_fmap.
  unfold saturated. rewrite user_to_articles_interacted; [done|].
  by apply (Forall_forall (λ t, isna (customer_id t) = false) tbl).
Qed.

Lemma df_sample_seeded_state {X : Type} (df : list X) size (seed : Z) g :
  (df_sample df size (Some seed) g).2 = g.
Proof.
  unfold df_sample. case_decide; [|done].
  unfold bind, sample_permutation. destruct (rs_seed seed) as [g1|]; [|done].
  unfold take_rows. by destruct (mapM _ _).
Qed.

Lemma balance_seeded_state pos negs (seed : Z) g :
  (balance pos negs (Some seed) g).2 = g.
Proof.
  unfold balance. case_decide; [|case_decide; [|done]]; unfold bind.
  - pose proof (df_sample_seeded_state pos (length negs) seed g) as Hg.
    destruct (df_sample pos (length negs) (Some seed) g) as [[rows|e] g1];
      simpl in *; by subst.
  - pose proof (df_sample_seeded_state negs (length pos) seed g) as Hg.
    destruct (df_sample negs (length pos) (Some seed) g) as [[rows|e] g1];
      simpl in *; by subst.
Qed.

(** X10: a returned table has twice as many rows as negatives were
    generated. *)
Theorem labeled_size tbl random_state g out g' negs g1 :
  get_labels_no_coldstart tbl random_state g = (Ok out, g') →
  generate_negatives tbl random_state g = (Ok negs, g1) →
  length out = 2 * length negs ∧ length out ≤ 2 * length tbl.
Proof.
  intros (negs0 & g0 & pos' & Hneg & Hsub & Hlen & Hperm)%get_labels_no_coldstart_stages
         Hneg'.
  rewrite Hneg' in Hneg. injection Hneg as <- <-.
  apply generate_negatives_length in Hneg'. unfold positives in Hneg'.
  rewrite length_fmap in Hneg'.
  rewrite Hperm, length_app. lia.
Qed.

(** X11: every row of a returned table has label 0 or 1, a customer of the
    input and an article of the input; a row with label 1 is an input
    pair. *)
Theorem labeled_rows_from_input tbl random_state g out g' :
  get_labels_no_coldstart tbl random_state g = (Ok out, g') →
  ∀ r, r ∈ out →
    l_customer_id r ∈ (customer_id <$> tbl) ∧
    l_article_id r ∈ (article_id <$> tbl) ∧
    (label r = 0%Z ∨
     label r = 1%Z ∧
     ∃ t, t ∈ tbl ∧ customer_id t = l_customer_id r ∧ article_id t = l_article_id r).
Proof.
  intros (negs & g1 & pos' & Hneg & Hsub & _ & Hperm)%get_labels_no_coldstart_stages r Hr.
  rewrite Hperm in Hr. apply elem_of_app in Hr as [Hr|Hr].
  - eapply elem_of_submseteq in Hr; [|done].
    apply elem_of_positives in Hr as (t & Ht & ->). simpl.
    split; [by apply list_elem_of_fmap_2|]. split; [by apply list_elem_of_fmap_2|].
    right. split; [done|]. by exists t.
  - apply generate_negatives_ok in Hneg as [Hcust Hall].
    rewrite Forall_forall in Hall. destruct (Hall r Hr) as (Hlabel & Hart & _).
    split; [|by split; [|left]].
    eapply elem_of_sublist; [|done]. by apply list_elem_of_fmap_2.
Qed.

(** X12: when no customer_id is missing and every customer of the table has
    a row with every article of the table, no negative can be drawn and,
    for an accepted seed, the call returns the empty table, dropping all
    positives. *)
Theorem saturated_table_gives_empty tbl random_state g :
  Forall (λ t, isna (customer_id t) = false) tbl →
  Forall (λ t, saturated tbl (customer_id t)) tbl →
  seed_accepted random_state →
  ∃ g', get_labels_no_coldstart tbl random_state g = (Ok [], g').
Proof.
  intros Hpresent Hsat Hseed.
  destruct (get_labels_no_coldstart_total tbl random_state g Hseed Hpresent)
    as (out & g' & Hrun).
  exists g'. rewrite Hrun. do 2 f_equal.
  apply get_labels_no_coldstart_stages in Hrun
    as (negs & g1 & pos' & Hneg & _ & Hlen & Hperm).
  apply generate_negatives_customers in Hneg.
  rewrite filter_none in Hneg.
  - apply fmap_nil_inv in Hneg. subst negs.
    apply nil_length_inv in Hlen. subst pos'.
    by apply Permutation_nil_r in Hperm.
  - apply Forall_fmap. eapply Forall_impl; [done|]. simpl. by intros t Ht Hn.
Qed.

(** X13: when every customer of the table lacks some article of the table,
    one negative is generated per input row, for the same customers in the
    same order, and no positive is dropped: the returned table is a
    shuffle of all input pairs and those negatives. *)
Theorem unsaturated_table_keeps_all tbl random_state g out g' :
  Forall (λ t, ¬ saturated tbl (customer_id t)) tbl →
  get_labels_no_coldstart tbl random_state g = (Ok out, g') →
  ∃ negs g1,
    generate_negatives tbl random_state g = (Ok negs, g1) ∧
    l_customer_id <$> negs = customer_id <$> tbl ∧
    out ≡ₚ positives tbl ++ negs ∧
    length out = 2 * length tbl.
Proof.
  intros Hunsat (negs & g1 & pos' & Hneg & Hsub & Hlen & Hperm)%get_labels_no_coldstart_stages.
  pose proof (generate_negatives_customers _ _ _ _ _ Hneg) as Hcust.
  rewrite filter_all in Hcust by (by apply Forall_fmap).
  assert (length negs = length tbl) as Hn.
  { by rewrite <- (length_fmap l_customer_id), Hcust, length_fmap. }
  assert (pos' ≡ₚ positives tbl) as Hpos.
  { apply submseteq_length_Permutation; [done|].
    unfold positives. rewrite length_fmap. lia. }
  exists negs, g1. split; [done|]. split; [done|].
  split; [by rewrite Hperm, Hpos|]. rewrite Hperm, length_app. lia.
Qed.

Lemma user_to_articles_missing pos u :
  isna u = true → user_to_articles pos !! u = None.
Proof.
  intros Hna. destruct (user_to_articles pos !! u) as [seen|] eqn:Hseen; [|done].
  assert (isna u = false) by (apply (user_to_articles_key pos); by rewrite Hseen).
  congruence.
Qed.

Lemma generate_negatives_missing tbl random_state g :
  seed_accepted random_state →
  Exists (λ t, isna (customer_id t) = true) tbl →
  ∃ g', generate_negatives tbl random_state g = (Raise KeyError, g').
Proof.
  intros Hseed (t & Ht & Hna)%Exists_exists. unfold generate_negatives, bind.
  assert (∃ g0, match random_state with
                | Some seed => np_random_seed seed
                | None => ret ()
                end g = (Ok (), g0)) as [g0 ->].
  { destruct random_state as [seed|]; [|by eexists].
    destruct Hseed as [g0 Hg0]. exists g0. unfold np_random_seed. by rewrite Hg0. }
  apply negative_rows_missing_key. apply Exists_exists.
  exists (LRow (customer_id t) (article_id t) 1%Z).
  split; [apply elem_of_positives; by exists t|].
  by apply user_to_articles_missing.
Qed.

(** X14: the labeler raises ValueError exactly when numpy rejects the seed,
    leaving the global generator as it was, and KeyError exactly when the
    seed is accepted and some row has a missing customer_id, which the
    dict built by groupby has no key for.  It raises nothing else: the
    choice and the two samplings never fail. *)
Theorem labeler_exceptions tbl random_state g :
  (¬ seed_accepted random_state →
   get_labels_no_coldstart tbl random_state g = (Raise ValueError, g)) ∧
  (seed_accepted random_state →
   Exists (λ t, isna (customer_id t) = true) tbl →
   ∃ g', get_labels_no_coldstart tbl random_state g = (Raise KeyError, g')) ∧
  (∀ e g', get_labels_no_coldstart tbl random_state g = (Raise e, g') →
     e = ValueError ∧ ¬ seed_accepted random_state ∧ g' = g ∨
     e = KeyError ∧ seed_accepted random_state ∧
       Exists (λ t, isna (customer_id t) = true) tbl).
Proof.
  assert (¬ seed_accepted random_state →
          get_labels_no_coldstart tbl random_state g = (Raise ValueError, g))
    as Hbad.
  { intros Hrej. destruct random_state as [seed|]; [|by destruct Hrej].
    destruct (rs_seed seed) as [g0|] eqn:Hseed.
    { destruct Hrej. simpl. by rewrite Hseed. }
    unfold get_labels_no_coldstart, balanced_groups, generate_negatives, bind,
      np_random_seed.
    by rewrite Hseed. }
  assert (seed_accepted random_state →
          Exists (λ t, isna (customer_id t) = true) tbl →
          ∃ g', get_labels_no_coldstart tbl random_state g = (Raise KeyError, g'))
    as Hkey.
  { intros Hseed Hmiss.
    destruct (generate_negatives_missing tbl random_state g Hseed Hmiss)
      as [g1 Hneg].
    exists g1. unfold get_labels_no_coldstart, balanced_groups, bind.
    by rewrite Hneg. }
  split; [done|]. split; [done|]. intros e g' Hrun.
  assert (Decision (seed_accepted random_state)) as [Hseed|Hrej].
  { destruct random_state; simpl; apply _. }
  - right.
    destruct (decide (Forall (λ t, isna (customer_id t) = false) tbl))
      as [Hpresent|Hmiss].
    { destruct (get_labels_no_coldstart_total tbl random_state g Hseed Hpresent)
        as (out & g2 & Hok).
      by rewrite Hok in Hrun. }
    apply not_Forall_Exists in Hmiss; [|apply _].
    assert (Exists (λ t, isna (customer_id t) = true) tbl) as Hex.
    { eapply Exists_impl; [done|]. simpl. intros t Ht.
      by destruct (isna (customer_id t)). }
    destruct (Hkey Hseed Hex) as [g2 Hraise].
    rewrite Hraise in Hrun. injection Hrun as <- <-. by repeat split.
  - left. rewrite (Hbad Hrej) in Hrun. injection Hrun as <- <-. by repeat split.
Qed.

(** X15: a call with an accepted seed replaces the global generator: after
    the call it is the freshly seeded generator advanced by the negative
    draws only, whatever it was before; the two samplings do not touch
    it. *)
Theorem seeded_call_replaces_global tbl (seed : Z) g g0 :
  rs_seed seed = Some g0 →
  (get_labels_no_coldstart tbl (Some seed) g).2 =
    (generate_negatives tbl None g0).2.
Proof.
  intros Hseed.
  unfold get_labels_no_coldstart, balanced_groups, generate_negatives, bind,
    np_random_seed, ret.
  rewrite Hseed.
  destruct (negative_rows _ _ _ g0) as [[negs|e] g1]; [|done].
  pose proof (balance_seeded_state (positives tbl) negs seed g1) as Hbal.
  destruct (balance (positives tbl) negs (Some seed) g1) as [[groups|e] g2];
    simpl in *; subst g2; [|done].
  apply df_sample_seeded_state.
Qed.

Lemma length_filter_fmap {X Y : Type} `{EqDecision Y} (f : X → Y) (u : Y)
    (l : list X) :
  length (filter (λ x, f x = u) l) = length (filter (λ y, y = u) (f <$> l)).
Proof.
  induction l as [|x l IH]; [done|]. csimpl.
  destruct (decide (f x = u)).
  - rewrite !filter_cons_True by done. simpl. by rewrite IH.
  - by rewrite !filter_cons_False by done.
Qed.

(** X16: the customers of the generated negatives are the customer column
    of the input with the rows of saturated customers left out, in input
    order: a customer gets as many negatives as it has input rows, or none
    at all when it is saturated. *)
Theorem negatives_follow_unsaturated_rows tbl random_state g negs g' :
  generate_negatives tbl random_state g = (Ok negs, g') →
  l_customer_id <$> negs =
    filter (λ u, ¬ saturated tbl u) (customer_id <$> tbl) ∧
  ∀ u, length (filter (λ r, l_customer_id r = u) negs) =
       if decide (saturated tbl u) then 0
       else length (filter (λ t, customer_id t = u) tbl).
Proof.
  intros Hcust%generate_negatives_customers. split; [done|]. intros u.
  rewrite (length_filter_fmap l_customer_id u negs), Hcust, list_filter_filter.
  case_decide as Hsat.
  - rewrite filter_none; [done|].
    apply Forall_forall. by intros y _ [-> Hn].
  - rewrite (length_filter_fmap customer_id u tbl). f_equal.
    apply list_filter_iff. intros y. split; [tauto|]. by intros ->.
Qed.

End labeler_more.

(** * Further properties: read_data *)

Section ingestion_theory.
Context {T : Type}.
Variable files : string → option T.

(** X17: the file names are the path followed directly by the base name,
    with no separator added: when the only files that exist are inside
    the directory ./data/, the call with the default path finds none of
    them and fails on the name ./datacustomers.csv. *)
Theorem default_path_misses_directory :
  (∀ name table, files name = Some table → String.prefix "./data/" name = true) →
  read_data files default_path = FileNotFoundError "./datacustomers.csv".
Proof.
  intros Hdir. unfold read_data, pd_read_csv, default_path.
  destruct (files ("./data" +:+ "customers.csv")) as [table|] eqn:Hfile; [|done].
  apply Hdir in Hfile. vm_compute in Hfile. discriminate.
Qed.

End ingestion_theory.

(** * The further properties on small inputs *)

Local Open Scope Z_scope.

Lemma train_test_sizes_witness :
  0 < 2 ∧ 5 * 2 ≤ n (unique_table 12) ∧
  Z.of_nat (length (train_test (unique_table 12) 2).1) = 4 * 2 ∧
  Z.of_nat (length (train_test (unique_table 12) 2).2) = 2 ∧
  (train_test (unique_table 12) 2).1 ++ (train_test (unique_table 12) 2).2 =
    drop (Z.to_nat (n (unique_table 12) - 5 * 2)) (unique_table 12).
Proof.
  split; [lia|]. split; [vm_compute; discriminate|].
  apply (train_test_sizes (unique_table 12) 2); [lia|vm_compute; discriminate].
Defined.

Lemma train_test_short_table_witness :
  0 < 2 ∧ n (unique_table 7) ≤ 5 * 2 ∧
  (train_test (unique_table 7) 2).1 ++ (train_test (unique_table 7) 2).2 =
    unique_table 7 ∧
  Z.of_nat (length (train_test (unique_table 7) 2).2) = Z.min (n (unique_table 7)) 2 ∧
  (n (unique_table 7) ≤ 2 → train_test (unique_table 7) 2 = ([], unique_table 7)).
Proof.
  split; [lia|]. split; [vm_compute; discriminate|].
  apply (train_test_short_table (unique_table 7) 2); [lia|vm_compute; discriminate].
Defined.

Lemma train_test_nonpositive_factor_witness :
  -1 ≤ 0 ∧
  train_test (unique_table 5) (-1) = ([], drop (Z.to_nat (- -1)) (unique_table 5)).
Proof.
  split; [lia|]. apply (train_test_nonpositive_factor (unique_table 5) (-1)). lia.
Defined.

Lemma nonpositive_factor_returns_empty_witness :
  0 ≤ 0 ∧ train_test_no_coldstart cold_tail_table 0 = Some (Ok ([], [])).
Proof.
  split; [lia|]. apply (nonpositive_factor_returns_empty cold_tail_table 0). lia.
Defined.

Lemma found_window_is_most_recent_witness :
  0 < 2 ∧
  train_test_no_coldstart_trace cold_tail_table 2 =
    Some ([12; 10], Ok (cold_tail_train, cold_tail_test)) ∧
  ∃ c, last [12; 10] = Some c ∧
       c = n cold_tail_table - Z.of_nat (length [12; 10]) * 2 ∧
       2 ≤ Z.of_nat (length (valid_test_at cold_tail_table 2 c)) ∧
       ∀ k : nat, c < n cold_tail_table - (Z.of_nat k + 1) * 2 →
         Z.of_nat (length (valid_test_at cold_tail_table 2
                             (n cold_tail_table - (Z.of_nat k + 1) * 2))) < 2.
Proof.
  split; [lia|]. split; [vm_compute; reflexivity|].
  apply (found_window_is_most_recent cold_tail_table 2 [12; 10]
           cold_tail_train cold_tail_test); [lia|vm_compute; reflexivity].
Defined.

Lemma windows_tried_bound_witness :
  0 < 2 ∧
  train_test_no_coldstart_trace (unique_table 13) 2 = Some ([11], Raise ValueError) ∧
  Z.of_nat (length [11]) ≤ Z.max 0 (n (unique_table 13) `div` 2 - 5) ∧
  (@Raise (list (@row nat nat) * list (@row nat nat)) ValueError = Raise ValueError →
   Z.of_nat (length [11]) = Z.max 0 (n (unique_table 13) `div` 2 - 5)).
Proof.
  split; [lia|]. split; [vm_compute; reflexivity|].
  apply (windows_tried_bound (unique_table 13) 2 [11] (Raise ValueError));
    [lia|vm_compute; reflexivity].
Defined.

Lemma all_cold_start_raises_witness :
  0 < 2 ∧
  (NoDup (article_id <$> unique_table 13) ∨ NoDup (customer_id <$> unique_table 13)) ∧
  train_test_no_coldstart (unique_table 13) 2 = Some (Raise ValueError).
Proof.
  assert (NoDup (article_id <$> unique_table 13)) as Hnodup.
  { apply (bool_decide_unpack _). vm_compute. exact I. }
  split; [lia|]. split; [by left|].
  apply (all_cold_start_raises (unique_table 13) 2); [lia|by left].
Defined.

Lemma agrees_with_train_test_when_warm_witness :
  0 < 2 ∧ 6 * 2 ≤ n (cyclic_table 2 3 12) ∧
  Forall (is_valid (train_at (cyclic_table 2 3 12) 2 (n (cyclic_table 2 3 12) - 2)))
         (train_test (cyclic_table 2 3 12) 2).2 ∧
  train_test_no_coldstart_trace (cyclic_table 2 3 12) 2 =
    Some ([n (cyclic_table 2 3 12) - 2],
          Ok (train_at (cyclic_table 2 3 12) 2 (n (cyclic_table 2 3 12) - 2),
              (train_test (cyclic_table 2 3 12) 2).2)) ∧
  (train_test (cyclic_table 2 3 12) 2).1 =
    drop (Z.to_nat 2) (train_at (cyclic_table 2 3 12) 2 (n (cyclic_table 2 3 12) - 2)).
Proof.
  assert (Forall (is_valid (train_at (cyclic_table 2 3 12) 2
                              (n (cyclic_table 2 3 12) - 2)))
                 (train_test (cyclic_table 2 3 12) 2).2) as Hwarm.
  { apply (bool_decide_unpack _). vm_compute. exact I. }
  split; [lia|]. split; [vm_compute; discriminate|]. split; [done|].
  apply (agrees_with_train_test_when_warm (cyclic_table 2 3 12) 2);
    [lia|vm_compute; discriminate|done].
Defined.

Lemma train_precedes_pool_witness :
  0 < 2 ∧
  train_test_no_coldstart_trace cold_tail_table 2 =
    Some ([12; 10], Ok (cold_tail_train, cold_tail_test)) ∧
  ∃ before pool,
    cold_tail_table = before ++ cold_tail_train ++ pool ∧
    cold_tail_test `sublist_of` pool ∧
    Z.of_nat (length pool) = Z.of_nat (length [12; 10]) * 2.
Proof.
  split; [lia|]. split; [vm_compute; reflexivity|].
  apply (train_precedes_pool cold_tail_table 2); [lia|vm_compute; reflexivity].
Defined.

Local Open Scope nat_scope.

Lemma labeled_size_witness :
  get_labels_no_coldstart small_table (Some 5%Z) 0%Z = (Ok small_labeled, 6%Z) ∧
  generate_negatives small_table (Some 5%Z) 0%Z = (Ok small_negatives, 6%Z) ∧
  length small_labeled = 2 * length small_negatives ∧
  length small_labeled ≤ 2 * length small_table.
Proof.
  split; [vm_compute; reflexivity|]. split; [vm_compute; reflexivity|].
  apply (labeled_size small_table (Some 5%Z) 0%Z small_labeled 6%Z small_negatives 6%Z);
    vm_compute; reflexivity.
Defined.

Lemma labeled_rows_from_input_witness :
  get_labels_no_coldstart small_table (Some 5%Z) 0%Z = (Ok small_labeled, 6%Z) ∧
  ∀ r, r ∈ small_labeled →
    l_customer_id r ∈ (customer_id <$> small_table) ∧
    l_article_id r ∈ (article_id <$> small_table) ∧
    (label r = 0%Z ∨
     label r = 1%Z ∧
     ∃ t, t ∈ small_table ∧ customer_id t = l_customer_id r ∧
          article_id t = l_article_id r).
Proof.
  split; [vm_compute; reflexivity|].
  apply (labeled_rows_from_input small_table (Some 5%Z) 0%Z small_labeled 6%Z).
  vm_compute. reflexivity.
Defined.

Lemma saturated_table_gives_empty_witness :
  Forall (λ t, isna (customer_id t) = false) one_article_table ∧
  Forall (λ t, saturated one_article_table (customer_id t)) one_article_table ∧
  seed_accepted (RS:=Z) (Some 5%Z) ∧
  ∃ g', get_labels_no_coldstart one_article_table (Some 5%Z) 0%Z = (Ok [], g').
Proof.
  assert (Forall (λ t, saturated one_article_table (customer_id t))
                 one_article_table) as Hsat.
  { apply (bool_decide_unpack _). vm_compute. exact I. }
  assert (seed_accepted (RS:=Z) (Some 5%Z)) as Hseed by (by eexists).
  assert (Forall (λ t, isna (customer_id t) = false) one_article_table)
    as Hpresent by (by repeat constructor).
  split; [done|]. split; [done|]. split; [done|].
  by apply (saturated_table_gives_empty one_article_table (Some 5%Z) 0%Z).
Defined.

Lemma unsaturated_table_keeps_all_witness :
  Forall (λ t, ¬ saturated half_table (customer_id t)) half_table ∧
  get_labels_no_coldstart half_table (Some 7%Z) 0%Z = (Ok half_labeled, 13%Z) ∧
  ∃ negs g1,
    generate_negatives half_table (Some 7%Z) 0%Z = (Ok negs, g1) ∧
    l_customer_id <$> negs = customer_id <$> half_table ∧
    half_labeled ≡ₚ positives half_table ++ negs ∧
    length half_labeled = 2 * length half_table.
Proof.
  assert (Forall (λ t, ¬ saturated half_table (customer_id t)) half_table) as Hunsat.
  { apply (bool_decide_unpack _). vm_compute. exact I. }
  split; [done|]. split; [vm_compute; reflexivity|].
  apply (unsaturated_table_keeps_all half_table (Some 7%Z) 0%Z half_labeled 13%Z);
    [done|vm_compute; reflexivity].
Defined.

Lemma labeler_exceptions_witness :
  seed_accepted (RS:=Z) (Some 5%Z) ∧
  Exists (λ t, isna (customer_id t) = true) missing_customer_table ∧
  ∃ g', get_labels_no_coldstart missing_customer_table (Some 5%Z) 0%Z =
          (Raise KeyError, g').
Proof.
  assert (seed_accepted (RS:=Z) (Some 5%Z)) as Hseed by (by eexists).
  assert (Exists (λ t, isna (customer_id t) = true) missing_customer_table)
    as Hmiss by (right; by left).
  split; [done|]. split; [done|].
  by apply (labeler_exceptions missing_customer_table (Some 5%Z) 0%Z).
Defined.

Lemma seeded_call_replaces_global_witness :
  rs_seed (RS:=Z) 5%Z = Some 5%Z ∧
  (get_labels_no_coldstart small_table (Some 5%Z) 0%Z).2 =
    (generate_negatives small_table None 5%Z).2.
Proof.
  split; [vm_compute; reflexivity|].
  apply (seeded_call_replaces_global small_table 5%Z 0%Z 5%Z).
  vm_compute. reflexivity.
Defined.

Lemma negatives_follow_unsaturated_rows_witness :
  generate_negatives small_table (Some 5%Z) 0%Z = (Ok small_negatives, 6%Z) ∧
  l_customer_id <$> small_negatives =
    filter (λ u, ¬ saturated small_table u) (customer_id <$> small_table) ∧
  ∀ u, length (filter (λ r, l_customer_id r = u) small_negatives) =
       if decide (saturated small_table u) then 0
       else length (filter (λ t, customer_id t = u) small_table).
Proof.
  split; [vm_compute; reflexivity|].
  apply (negatives_follow_unsaturated_rows small_table (Some 5%Z) 0%Z
           small_negatives 6%Z).
  vm_compute. reflexivity.
Defined.

Lemma default_path_misses_directory_witness :
  (∀ name table, data_directory name = Some table →
                 String.prefix "./data/" name = true) ∧
  read_data data_directory default_path = FileNotFoundError "./datacustomers.csv".
Proof.
  assert (∀ name table, data_directory name = Some table →
                        String.prefix "./data/" name = true) as Hdir.
  { intros name table. unfold data_directory.
    by destruct (String.prefix "./data/" name). }
  split; [done|]. by apply (default_path_misses_directory data_directory).
Defined.
